(** * Agentic execution engine: provider conversation loop and run batcher

    Shallow embedding of
    - [sim/providers/openai/index.ts] ([openaiProvider.executeRequest]), and
    - [sim/app/w/[id]/components/control-bar/control-bar.tsx]
      ([handleMultipleRuns]),
    followed by the properties established about them.

    Conventions.  JavaScript objects used as string-keyed maps are [gmap
    string _]; arrays are lists; [undefined]/[null] is [None].  Everything the
    code obtains from outside (the clock, the completion endpoint, the tool
    registry, the JSON builtins) is an oracle that may depend on the whole
    history of earlier interactions; every interaction is recorded as an
    event, most recent first.  Logging is not modelled. *)

From stdpp Require Import gmap strings list fin_maps pretty.
From Stdlib Require Import ZArith NArith QArith.

Local Open Scope string_scope.
Local Open Scope Z_scope.
Local Open Scope list_scope.
#[local] Set Warnings "-register-all".

(** ** JavaScript values *)

Module JS.

Inductive JSValue : Type :=
| JNull
| JBool (b : bool)
| JNum (n : Z)
| JStr (s : string)
| JArr (l : list JSValue)
| JObj (o : gmap string JSValue).

Abbreviation Obj := (gmap string JSValue).

(** Truthiness of an optional string ([undefined] and [''] are falsy). *)
Definition truthy_str (s : option string) : bool :=
  match s with
  | Some s => negb (bool_decide (s = ""))
  | None => false
  end.

(** Truthiness of a value. *)
Definition truthy (v : JSValue) : bool :=
  match v with
  | JNull => false
  | JBool b => b
  | JNum n => negb (n =? 0)
  | JStr s => negb (bool_decide (s = ""))
  | JArr _ | JObj _ => true
  end.

(** Truthiness of a variable that holds [null] ([None]) or a value. *)
Definition truthy_opt (v : option JSValue) : bool :=
  match v with
  | Some v => truthy v
  | None => false
  end.

(** Own enumerable properties of a value, as seen by object spread. *)
Definition ownProps (v : JSValue) : Obj :=
  match v with
  | JObj o => o
  | JArr l => list_to_map (imap (fun i x => (pretty i, x)) l)
  | JStr s =>
      list_to_map
        (imap (fun i c => (pretty i, JStr (String c EmptyString)))
              (String.list_ascii_of_string s))
  | JNull | JBool _ | JNum _ => ∅
  end.

(** CopyDataProperties: every property of [src] is set on [target], one at a
    time, overwriting a property of the same name. *)
Definition copyProps (src target : Obj) : Obj :=
  map_fold (fun k v acc => <[k:=v]> acc) target src.

(** The object literal [{ ...a, ...b }]: a fresh object receives the
    properties of [a], then those of [b]. *)
Definition spread (a b : Obj) : Obj := copyProps b (copyProps a ∅).

End JS.
Import JS.

(** ** The OpenAI provider *)

Module OpenAI.

(** *** Data (shapes of [../types] and of the client library, as used) *)

Inductive SegmentType := model | tool.

#[global] Instance SegmentType_eq_dec : EqDecision SegmentType.
Proof. solve_decision. Defined.

Record TimeSegment := {
  seg_type : SegmentType;
  seg_name : string;
  seg_startTime : Z;
  seg_endTime : Z;
  seg_duration : Z;
}.

Record ProviderToolConfig := {
  tool_id : string;
  tool_description : string;
  tool_parameters : JSValue;
  tool_params : option Obj;
}.

Inductive Role := system | user | assistant | toolRole.

#[global] Instance Role_eq_dec : EqDecision Role.
Proof. solve_decision. Defined.

(** A tool call as it appears in a completion and in an assistant message:
    [{ id, type: 'function', function: { name, arguments } }]. *)
Record ToolCall := {
  tc_id : string;
  fn_name : string;
  fn_arguments : string;
}.

Record Message := {
  role : Role;
  content : option string;
  tool_calls : option (list ToolCall);
  tool_call_id : option string;
}.

Record ResponseFormat := {
  rf_name : option string;
  rf_schema : option JSValue;
  rf_strict : option bool;
  rf_self : JSValue;
}.

Record ProviderRequest := {
  req_model : option string;
  systemPrompt : option string;
  context : option string;
  tools : option (list ProviderToolConfig);
  messages : option (list Message);
  temperature : option Q;
  maxTokens : option Z;
  apiKey : option string;
  responseFormat : option ResponseFormat;
}.

Record FunctionDecl := {
  fd_name : string;
  fd_description : string;
  fd_parameters : JSValue;
}.

Record JsonSchemaFormat := {
  js_name : string;
  js_schema : JSValue;
  js_strict : bool;
}.

Record Payload := {
  p_model : string;
  p_messages : list Message;
  p_temperature : option Q;
  p_max_tokens : option Z;
  p_response_format : option JsonSchemaFormat;
  p_tools : option (list FunctionDecl);
  p_tool_choice : option string;
}.

Record Usage := {
  prompt_tokens : option N;
  completion_tokens : option N;
  total_tokens : option N;
}.

Record ChoiceMessage := {
  cm_content : option string;
  cm_tool_calls : option (list ToolCall);
}.

Record Choice := { choice_message : option ChoiceMessage }.

Record Completion := {
  choices : list Choice;
  usage : option Usage;
}.

Record ToolResponse := {
  success : bool;
  output : JSValue;
}.

Record Tokens := {
  prompt : N;
  completion : N;
  total : N;
}.

Record ToolCallLog := {
  log_name : string;
  log_arguments : JSValue;
  log_startTime : string;
  log_endTime : string;
  log_duration : Z;
  log_result : JSValue;
}.

Record Timing := {
  startTime : string;
  endTime : string;
  duration : Z;
  modelTime : Z;
  toolsTime : Z;
  firstResponseTime : Z;
  iterations : Z;
  timeSegments : list TimeSegment;
}.

Record ProviderResponse := {
  res_content : string;
  res_model : option string;
  res_tokens : Tokens;
  res_toolCalls : option (list ToolCallLog);
  res_toolResults : option (list JSValue);
  timing : Timing;
}.

Record ErrorTiming := {
  err_startTime : string;
  err_endTime : string;
  err_duration : Z;
}.

(** A thrown [Error]: its message and the [timing] property the provider
    attaches to the errors it rethrows. *)
Record JSError := {
  message : string;
  err_timing : option ErrorTiming;
}.

(** *** The outside world *)

Inductive Event :=
| EvNow (t : Z)
| EvCreate (p : Payload) (r : string + Completion)
| EvTool (toolName : string) (mergedArgs : Obj) (r : string + ToolResponse).

(** Most recent event first. *)
Definition History := list Event.

(** The oracles.  [inl msg] is a rejected promise or a thrown exception with
    that message. *)
Record World := {
  Date_now : History -> Z;
  create : History -> Payload -> string + Completion;
  executeTool : History -> string -> Obj -> string + ToolResponse;
  JSON_parse : string -> option JSValue;
  JSON_stringify : JSValue -> string;
  toISOString : Z -> string;
}.

(** *** Computations: history passing with exceptions *)

Inductive Res (A : Type) :=
| Ok (a : A)
| Throw (e : JSError)
| OutOfFuel.
Arguments Ok {A} a.
Arguments Throw {A} e.
Arguments OutOfFuel {A}.

Definition M (A : Type) : Type := History -> Res A * History.

#[global] Instance M_ret : MRet M := fun A a h => (Ok a, h).

#[global] Instance M_bind : MBind M := fun A B k m h =>
  match m h with
  | (Ok a, h') => k a h'
  | (Throw e, h') => (Throw e, h')
  | (OutOfFuel, h') => (OutOfFuel, h')
  end.

Definition throw {A} (e : JSError) : M A := fun h => (Throw e, h).

Definition outOfFuel {A} : M A := fun h => (OutOfFuel, h).

(** [try { m } catch (error) { handler error }]; the events of [m] up to the
    throw remain in the history. *)
Definition tryCatch {A} (m : M A) (handler : JSError -> M A) : M A := fun h =>
  match m h with
  | (Throw e, h') => handler e h'
  | r => r
  end.

Definition mkError (msg : string) : JSError :=
  {| message := msg; err_timing := None |}.

(** *** Accessors on a completion *)

(** [currentResponse.choices[0]?.message] *)
Definition firstMessage (c : Completion) : option ChoiceMessage :=
  head (choices c) ≫= choice_message.

(** [currentResponse.choices[0]?.message?.content] *)
Definition responseContent (c : Completion) : option string :=
  firstMessage c ≫= cm_content.

(** [currentResponse.choices[0]?.message?.tool_calls] *)
Definition responseToolCalls (c : Completion) : option (list ToolCall) :=
  firstMessage c ≫= cm_tool_calls.

(** [currentResponse.usage?.f || 0] *)
Definition usageOr0 (f : Usage -> option N) (c : Completion) : N :=
  default 0%N (usage c ≫= f).

(** *** Observations on a history, oldest first *)

Definition createCalls (h : History) : list (Payload * (string + Completion)) :=
  omap (fun e => match e with EvCreate p r => Some (p, r) | _ => None end)
       (reverse h).

Definition modelCalls (h : History) : nat := length (createCalls h).

Definition completions (h : History) : list Completion :=
  omap (fun pr => match snd pr with inr c => Some c | inl _ => None end)
       (createCalls h).

Definition toolExecutions (h : History)
    : list (string * Obj * (string + ToolResponse)) :=
  omap (fun e => match e with EvTool n a r => Some (n, a, r) | _ => None end)
       (reverse h).

(** Outputs of the tool executions that succeeded. *)
Definition successOutputs (h : History) : list JSValue :=
  omap (fun x => match snd x with
                 | inr r => if success r then Some (output r) else None
                 | inl _ => None
                 end)
       (toolExecutions h).

Definition usageSum (f : Usage -> option N) (cs : list Completion) : N :=
  foldr (fun c acc => usageOr0 f c + acc)%N 0%N cs.

(** Sum of the durations of the segments of one kind. *)
Definition segmentTime (k : SegmentType) (segs : list TimeSegment) : Z :=
  foldr (fun s acc => if bool_decide (seg_type s = k)
                      then seg_duration s + acc else acc) 0 segs.


Section Provider.

Variable W : World.

Definition now : M Z := fun h =>
  let t := Date_now W h in (Ok t, EvNow t :: h).

Definition callCreate (p : Payload) : M Completion := fun h =>
  let r := create W h p in
  match r with
  | inr c => (Ok c, EvCreate p r :: h)
  | inl msg => (Throw (mkError msg), EvCreate p r :: h)
  end.

Definition callExecuteTool (toolName : string) (args : Obj) : M ToolResponse :=
  fun h =>
    let r := executeTool W h toolName args in
    match r with
    | inr x => (Ok x, EvTool toolName args r :: h)
    | inl msg => (Throw (mkError msg), EvTool toolName args r :: h)
    end.

Definition parseJSON (s : string) : M JSValue :=
  match JSON_parse W s with
  | Some v => mret v
  | None => throw (mkError "SyntaxError")
  end.

(** *** Loop state: the variables of the [try] block *)

Record LoopState := {
  currentResponse : Completion;
  st_content : string;
  tokens : Tokens;
  toolCalls : list ToolCallLog;
  toolResults : list JSValue;
  currentMessages : list Message;
  iterationCount : Z;
  st_modelTime : Z;
  st_toolsTime : Z;
  st_timeSegments : list TimeSegment;
  st_firstResponseTime : Z;
}.

Definition MAX_ITERATIONS : Z := 10.

Definition assistantMessage (toolCall : ToolCall) : Message :=
  {| role := assistant;
     content := None;
     tool_calls := Some [ {| tc_id := tc_id toolCall;
                             fn_name := fn_name toolCall;
                             fn_arguments := fn_arguments toolCall |} ];
     tool_call_id := None |}.

Definition toolMessage (toolCall : ToolCall) (out : JSValue) : Message :=
  {| role := toolRole;
     content := Some (JSON_stringify W out);
     tool_calls := None;
     tool_call_id := Some (tc_id toolCall) |}.

(** The pushes at the end of a successful tool call. *)
Definition recordToolCall (toolCall : ToolCall) (toolArgs : JSValue)
    (toolCallStartTime toolCallEndTime : Z) (result : ToolResponse)
    (st : LoopState) : LoopState :=
  let toolName := fn_name toolCall in
  let toolCallDuration := toolCallEndTime - toolCallStartTime in
  {| currentResponse := currentResponse st;
     st_content := st_content st;
     tokens := tokens st;
     toolCalls := toolCalls st ++
       [ {| log_name := toolName;
            log_arguments := toolArgs;
            log_startTime := toISOString W toolCallStartTime;
            log_endTime := toISOString W toolCallEndTime;
            log_duration := toolCallDuration;
            log_result := output result |} ];
     toolResults := toolResults st ++ [output result];
     currentMessages := currentMessages st ++
       [ assistantMessage toolCall; toolMessage toolCall (output result) ];
     iterationCount := iterationCount st;
     st_modelTime := st_modelTime st;
     st_toolsTime := st_toolsTime st;
     st_timeSegments := st_timeSegments st ++
       [ {| seg_type := tool;
            seg_name := toolName;
            seg_startTime := toolCallStartTime;
            seg_endTime := toolCallEndTime;
            seg_duration := toolCallDuration |} ];
     st_firstResponseTime := st_firstResponseTime st |}.

(** [request.tools?.find((t) => t.id === toolName)] *)
Definition findTool (request : ProviderRequest) (toolName : string)
    : option ProviderToolConfig :=
  tools request ≫= find (fun t => bool_decide (tool_id t = toolName)).

(** [{ ...tool.params, ...toolArgs }] *)
Definition mergeArgs (t : ProviderToolConfig) (toolArgs : JSValue) : Obj :=
  spread (default ∅ (tool_params t)) (ownProps toolArgs).

(** Body of [for (const toolCall of toolCallsInResponse)], with its
    [try]/[catch]; [continue] is a return of the unchanged state. *)
Definition processToolCall (request : ProviderRequest) (toolCall : ToolCall)
    (st : LoopState) : M LoopState :=
  tryCatch
    (let toolName := fn_name toolCall in
     toolArgs ← parseJSON (fn_arguments toolCall);
     match findTool request toolName with
     | None => mret st
     | Some t =>
         toolCallStartTime ← now;
         let mergedArgs := mergeArgs t toolArgs in
         result ← callExecuteTool toolName mergedArgs;
         toolCallEndTime ← now;
         if negb (success result) then mret st
         else mret (recordToolCall toolCall toolArgs
                      toolCallStartTime toolCallEndTime result st)
     end)
    (fun _ => mret st).

Fixpoint forToolCalls (request : ProviderRequest) (tcs : list ToolCall)
    (st : LoopState) : M LoopState :=
  match tcs with
  | [] => mret st
  | toolCall :: rest =>
      st' ← processToolCall request toolCall st;
      forToolCalls request rest st'
  end.

Definition withMessages (payload : Payload) (msgs : list Message) : Payload :=
  {| p_model := p_model payload;
     p_messages := msgs;
     p_temperature := p_temperature payload;
     p_max_tokens := p_max_tokens payload;
     p_response_format := p_response_format payload;
     p_tools := p_tools payload;
     p_tool_choice := p_tool_choice payload |}.

Definition modelSegmentName (iterationCount : Z) : string :=
  "Model response (iteration " +:+ pretty (iterationCount + 1) +:+ ")".

(** [tokens.f += currentResponse.usage.f || 0], under [if (currentResponse.usage)] *)
Definition addUsage (tk : Tokens) (c : Completion) : Tokens :=
  match usage c with
  | Some u =>
      {| prompt := prompt tk + default 0 (prompt_tokens u);
         completion := completion tk + default 0 (completion_tokens u);
         total := total tk + default 0 (total_tokens u) |}%N
  | None => tk
  end.

(** The updates that follow the next model call. *)
Definition recordModelCall (response : Completion)
    (thisToolsTime nextModelStartTime nextModelEndTime : Z)
    (st : LoopState) : LoopState :=
  let thisModelTime := nextModelEndTime - nextModelStartTime in
  {| currentResponse := response;
     st_content :=
       (if truthy_str (responseContent response)
        then default "" (responseContent response)
        else st_content st);
     tokens := addUsage (tokens st) response;
     toolCalls := toolCalls st;
     toolResults := toolResults st;
     currentMessages := currentMessages st;
     iterationCount := iterationCount st + 1;
     st_modelTime := st_modelTime st + thisModelTime;
     st_toolsTime := st_toolsTime st + thisToolsTime;
     st_timeSegments := st_timeSegments st ++
       [ {| seg_type := model;
            seg_name := modelSegmentName (iterationCount st);
            seg_startTime := nextModelStartTime;
            seg_endTime := nextModelEndTime;
            seg_duration := thisModelTime |} ];
     st_firstResponseTime := st_firstResponseTime st |}.

(** One pass through the body of the [while] loop, after the check for tool
    calls found [toolCallsInResponse] non-empty. *)
Definition whileBody (request : ProviderRequest) (payload : Payload)
    (toolCallsInResponse : list ToolCall) (st : LoopState) : M LoopState :=
  toolsStartTime ← now;
  st1 ← forToolCalls request toolCallsInResponse st;
  t ← now;
  let thisToolsTime := t - toolsStartTime in
  let nextPayload := withMessages payload (currentMessages st1) in
  nextModelStartTime ← now;
  response ← callCreate nextPayload;
  nextModelEndTime ← now;
  mret (recordModelCall response thisToolsTime
          nextModelStartTime nextModelEndTime st1).

(** [while (iterationCount < MAX_ITERATIONS) { ... }].  The recursion is on
    [fuel]; running out of it is the distinguished result [OutOfFuel]. *)
Fixpoint whileLoop (fuel : nat) (request : ProviderRequest) (payload : Payload)
    (st : LoopState) : M LoopState :=
  if iterationCount st <? MAX_ITERATIONS then
    match responseToolCalls (currentResponse st) with
    | None | Some [] => mret st
    | Some toolCallsInResponse =>
        match fuel with
        | O => outOfFuel
        | S fuel' =>
            st' ← whileBody request payload toolCallsInResponse st;
            whileLoop fuel' request payload st'
        end
    end
  else mret st.

(** The transcript sent with the first call. *)
Definition allMessages (request : ProviderRequest) : list Message :=
  (if truthy_str (systemPrompt request)
   then [ {| role := system; content := systemPrompt request;
             tool_calls := None; tool_call_id := None |} ]
   else [])
  ++ (if truthy_str (context request)
      then [ {| role := user; content := context request;
                tool_calls := None; tool_call_id := None |} ]
      else [])
  ++ default [] (messages request).

(** [request.model || 'gpt-4o'] *)
Definition modelOrDefault (request : ProviderRequest) : string :=
  if truthy_str (req_model request) then default "" (req_model request)
  else "gpt-4o".

Definition openaiTools (request : ProviderRequest) : option (list FunctionDecl) :=
  match tools request with
  | Some ((_ :: _) as ts) =>
      Some (map (fun t => {| fd_name := tool_id t;
                             fd_description := tool_description t;
                             fd_parameters := tool_parameters t |}) ts)
  | _ => None
  end.

Definition jsonSchemaFormat (rf : ResponseFormat) : JsonSchemaFormat :=
  {| js_name := (if truthy_str (rf_name rf) then default "" (rf_name rf)
                 else "response_schema");
     js_schema := (match rf_schema rf with
                   | Some s => if truthy s then s else rf_self rf
                   | None => rf_self rf
                   end);
     js_strict := negb (bool_decide (rf_strict rf = Some false)) |}.

Definition buildPayload (request : ProviderRequest) : Payload :=
  let tools := openaiTools request in
  {| p_model := modelOrDefault request;
     p_messages := allMessages request;
     p_temperature := temperature request;
     p_max_tokens := maxTokens request;
     p_response_format := jsonSchemaFormat <$> responseFormat request;
     p_tools := tools;
     p_tool_choice := (match tools with Some _ => Some "auto" | None => None end) |}.

(** The initial request and the initialisation of the loop variables. *)
Definition initialCall (request : ProviderRequest) (payload : Payload)
    : M LoopState :=
  initialCallTime ← now;
  response ← callCreate payload;
  t ← now;
  let firstResponseTime := t - initialCallTime in
  mret
    {| currentResponse := response;
       st_content := default "" (responseContent response);
       tokens := {| prompt := usageOr0 prompt_tokens response;
                    completion := usageOr0 completion_tokens response;
                    total := usageOr0 total_tokens response |};
       toolCalls := [];
       toolResults := [];
       currentMessages := allMessages request;
       iterationCount := 0;
       st_modelTime := firstResponseTime;
       st_toolsTime := 0;
       st_timeSegments :=
         [ {| seg_type := model;
              seg_name := "Initial response";
              seg_startTime := initialCallTime;
              seg_endTime := initialCallTime + firstResponseTime;
              seg_duration := firstResponseTime |} ];
       st_firstResponseTime := firstResponseTime |}.

(** [x.length > 0 ? x : undefined] *)
Definition nonEmpty {A} (l : list A) : option (list A) :=
  match l with [] => None | _ => Some l end.

Definition buildResponse (request : ProviderRequest)
    (providerStartTime providerEndTime : Z) (st : LoopState)
    : ProviderResponse :=
  {| res_content := st_content st;
     res_model := req_model request;
     res_tokens := tokens st;
     res_toolCalls := nonEmpty (toolCalls st);
     res_toolResults := nonEmpty (toolResults st);
     timing :=
       {| startTime := toISOString W providerStartTime;
          endTime := toISOString W providerEndTime;
          duration := providerEndTime - providerStartTime;
          modelTime := st_modelTime st;
          toolsTime := st_toolsTime st;
          firstResponseTime := st_firstResponseTime st;
          iterations := iterationCount st + 1;
          timeSegments := st_timeSegments st |} |}.

(** The [try] block. *)
Definition tryBlock (request : ProviderRequest) (payload : Payload)
    (providerStartTime : Z) : M ProviderResponse :=
  st0 ← initialCall request payload;
  st ← whileLoop (Z.to_nat MAX_ITERATIONS) request payload st0;
  providerEndTime ← now;
  mret (buildResponse request providerStartTime providerEndTime st).

(** The [catch] block: the error is rethrown with timing attached. *)
Definition catchBlock (providerStartTime : Z) (error : JSError)
    : M ProviderResponse :=
  providerEndTime ← now;
  throw {| message := message error;
           err_timing := Some
             {| err_startTime := toISOString W providerStartTime;
                err_endTime := toISOString W providerEndTime;
                err_duration := providerEndTime - providerStartTime |} |}.

Definition executeRequest (request : ProviderRequest) : M ProviderResponse :=
  if negb (truthy_str (apiKey request))
  then throw (mkError "API key is required for OpenAI")
  else
    let payload := buildPayload request in
    providerStartTime ← now;
    tryCatch (tryBlock request payload providerStartTime)
             (catchBlock providerStartTime).

(** *** The effect of one tool call, case by case

    [ToolStep request toolCall st h st' h'] lists the ways through the body
    of the [for] loop: the call is skipped before anything happens (its
    arguments do not parse, or no tool has its name), the execution throws,
    or it returns, successfully or not. *)
Inductive ToolStep (request : ProviderRequest) (toolCall : ToolCall)
    (st : LoopState) (h : History) : LoopState -> History -> Prop :=
| step_skipped :
    JSON_parse W (fn_arguments toolCall) = None \/
    findTool request (fn_name toolCall) = None ->
    ToolStep request toolCall st h st h
| step_threw toolArgs t msg :
    JSON_parse W (fn_arguments toolCall) = Some toolArgs ->
    findTool request (fn_name toolCall) = Some t ->
    let h1 := EvNow (Date_now W h) :: h in
    executeTool W h1 (fn_name toolCall) (mergeArgs t toolArgs) = inl msg ->
    ToolStep request toolCall st h st
      (EvTool (fn_name toolCall) (mergeArgs t toolArgs) (inl msg) :: h1)
| step_returned toolArgs t result :
    JSON_parse W (fn_arguments toolCall) = Some toolArgs ->
    findTool request (fn_name toolCall) = Some t ->
    let h1 := EvNow (Date_now W h) :: h in
    executeTool W h1 (fn_name toolCall) (mergeArgs t toolArgs) = inr result ->
    let h2 := EvTool (fn_name toolCall) (mergeArgs t toolArgs) (inr result) :: h1 in
    ToolStep request toolCall st h
      (if success result
       then recordToolCall toolCall toolArgs (Date_now W h) (Date_now W h2) result st
       else st)
      (EvNow (Date_now W h2) :: h2).

(** The messages appended for a list of successful calls with their
    outputs: for each, an assistant message declaring that one call, then
    its tool-result message. *)
Definition pairMessages (l : list (ToolCall * JSValue)) : list Message :=
  flat_map (fun x => [assistantMessage (fst x); toolMessage (fst x) (snd x)]) l.

(** The states the loop passes through: [Iter request n st h] says that
    after the first call and [n] passes through the body of the [while] loop,
    each entered because its guard held and tool calls were pending, the loop
    variables are [st] and the history is [h].  The run starts in the empty
    history. *)
Inductive Iter (request : ProviderRequest) : nat -> LoopState -> History -> Prop :=
| Iter_init st h :
    initialCall request (buildPayload request) [EvNow (Date_now W [])] = (Ok st, h) ->
    Iter request 0 st h
| Iter_step n st h toolCallsInResponse st' h' :
    Iter request n st h ->
    (iterationCount st <? MAX_ITERATIONS) = true ->
    responseToolCalls (currentResponse st) = Some toolCallsInResponse ->
    toolCallsInResponse <> [] ->
    whileBody request (buildPayload request) toolCallsInResponse st h = (Ok st', h') ->
    Iter request (S n) st' h'.

(** The same states, computed: the loop variables and the history after the
    first call and [n] passes through the loop, if the run gets that far. *)
Fixpoint iterState (request : ProviderRequest) (n : nat)
    : option (LoopState * History) :=
  match n with
  | O =>
      match initialCall request (buildPayload request) [EvNow (Date_now W [])] with
      | (Ok st, h) => Some (st, h)
      | _ => None
      end
  | S n' =>
      match iterState request n' with
      | Some (st, h) =>
          if iterationCount st <? MAX_ITERATIONS then
            match responseToolCalls (currentResponse st) with
            | Some (toolCall :: rest) =>
                match whileBody request (buildPayload request)
                        (toolCall :: rest) st h with
                | (Ok st', h') => Some (st', h')
                | _ => None
                end
            | _ => None
            end
          else None
      | None => None
      end
  end.

(** The wall-clock time of the tool-processing phase of the pass that starts
    with loop variables [st] in history [h]: the clock read that follows the
    [for] loop minus the one that precedes it. *)
Definition toolPhaseSpan (request : ProviderRequest) (st : LoopState)
    (h : History) : Z :=
  match responseToolCalls (currentResponse st) with
  | Some toolCallsInResponse =>
      let toolsStartTime := Date_now W h in
      let h1 := snd (forToolCalls request toolCallsInResponse st
                       (EvNow toolsStartTime :: h)) in
      Date_now W h1 - toolsStartTime
  | None => 0
  end.

(** The sum of those times over the first [n] passes of the run. *)
Fixpoint toolPhaseTotal (request : ProviderRequest) (n : nat) : Z :=
  match n with
  | O => 0
  | S n' =>
      toolPhaseTotal request n' +
      match iterState request n' with
      | Some (st, h) => toolPhaseSpan request st h
      | None => 0
      end
  end.

(** The loop is left: the cap is reached or no tool call is pending. *)
Definition loopExits (st : LoopState) : Prop :=
  (iterationCount st <? MAX_ITERATIONS) = false \/
  responseToolCalls (currentResponse st) = None \/
  responseToolCalls (currentResponse st) = Some [].

(** Every response of the provider requests at least one tool invocation. *)
Definition alwaysRequestsTools : Prop :=
  forall h p, exists c toolCall rest,
    create W h p = inr c /\ responseToolCalls c = Some (toolCall :: rest).

(** The clock never goes back. *)
Definition clockMonotone : Prop :=
  forall h e, Date_now W h <= Date_now W (e :: h).

End Provider.

(** What a tool call leaves alone. *)
Definition sameLoopVars (st st' : LoopState) : Prop :=
  currentResponse st' = currentResponse st /\
  st_content st' = st_content st /\
  tokens st' = tokens st /\
  iterationCount st' = iterationCount st /\
  st_modelTime st' = st_modelTime st /\
  st_toolsTime st' = st_toolsTime st /\
  st_firstResponseTime st' = st_firstResponseTime st /\
  segmentTime model (st_timeSegments st') = segmentTime model (st_timeSegments st).

(** The tool call names a tool of the request. *)
Definition resolved (request : ProviderRequest) (toolCall : ToolCall) : Prop :=
  is_Some (findTool request (fn_name toolCall)).

(** *** Further notions used in the statements *)

(** Every earlier element is related to every later one. *)
Definition ordered {A} (R : A -> A -> Prop) (l : list A) : Prop :=
  forall i j a b, (i < j)%nat -> l !! i = Some a -> l !! j = Some b -> R a b.

(** The provider answers every call. *)
Definition neverRejects (W : World) : Prop :=
  forall h p, exists c, create W h p = inr c.

(** The text of the latest response that carries text, [""] if none does. *)
Definition lastText (cs : list Completion) : string :=
  foldl (fun acc c => if truthy_str (responseContent c)
                      then default "" (responseContent c) else acc) "" cs.

(** The transcripts sent with the model calls, oldest first. *)
Definition payloadMessages (h : History) : list (list Message) :=
  map (fun pr => p_messages (fst pr)) (createCalls h).

Definition wellFormedSegment (s : TimeSegment) : Prop :=
  seg_endTime s - seg_startTime s = seg_duration s.

Definition countType (k : SegmentType) (segs : list TimeSegment) : nat :=
  length (filter (fun s => seg_type s = k) segs).

(** Invariants of the loop, on the loop variables and the history. *)
Definition transcriptInv (request : ProviderRequest) (st : LoopState) (h : History) : Prop :=
  ordered prefix (payloadMessages h) /\
  Forall (fun m => m `prefix_of` currentMessages st) (payloadMessages h) /\
  head (payloadMessages h) = Some (allMessages request) /\
  Forall (fun pr => withMessages (fst pr) (allMessages request) = buildPayload request)
         (createCalls h).

Definition resultsInv (st : LoopState) (h : History) : Prop :=
  toolResults st = successOutputs h /\
  map log_result (toolCalls st) = successOutputs h /\
  countType tool (st_timeSegments st) = length (successOutputs h) /\
  Z.of_nat (countType model (st_timeSegments st)) = iterationCount st + 1 /\
  Forall wellFormedSegment (st_timeSegments st) /\
  exists s0, head (st_timeSegments st) = Some s0 /\
             seg_type s0 = model /\ seg_name s0 = "Initial response" /\
             seg_duration s0 = st_firstResponseTime st.

Definition timeInv (W : World) (st : LoopState) (h : History) : Prop :=
  0 <= st_modelTime st /\ 0 <= st_toolsTime st /\
  st_modelTime st + st_toolsTime st <= Date_now W h - Date_now W [].

Definition chronoInv (W : World) (st : LoopState) (h : History) : Prop :=
  ordered (fun a b => seg_endTime a <= seg_startTime b) (st_timeSegments st) /\
  Forall (fun s => seg_startTime s <= seg_endTime s) (st_timeSegments st) /\
  Forall (fun s => seg_endTime s <= Date_now W h) (st_timeSegments st).

End OpenAI.

(** ** The control bar: running a workflow several times *)

Module ControlBar.

Inductive NotificationType := info | error | console.

Record Notification := {
  n_type : NotificationType;
  n_message : string;
  n_workflowId : option string;
}.

(** Component state, the [cancelFlagRef] ref, and what the component shows. *)
Record State := {
  isExecuting : bool;
  activeWorkflowId : option string;
  runCount : nat;
  completedRuns : nat;
  isMultiRunning : bool;
  showRunProgress : bool;
  isCancelling : bool;
  cancelFlagRef : bool;
  notifications : list Notification;
  hideProgressScheduled : bool;
}.

(** What one [await handleRunWorkflow()] does: it resolves ([run_error] is
    [None]) or rejects with a reason, which may be any value ([JNull] stands
    for both [null] and [undefined]), and while it is pending the user may
    click the cancel button. *)
Record RunResult := {
  run_error : option JSValue;
  cancelClicked : bool;
}.

Inductive FetchResult :=
| FetchThrows (msg : string)
| FetchRejects (msg : string)
| FetchResolves.

Inductive Event :=
| EvCheckCancel (i : nat) (flag : bool)
| EvRun (i : nat) (r : RunResult)
| EvFetch (url : string) (r : FetchResult).

(** The collaborators: the [i]-th run of the batch (from 0), and [fetch]. *)
Record Env := {
  handleRunWorkflow : nat -> RunResult;
  fetch : string -> FetchResult;
}.

Inductive Outcome := completed | cancelled | failed.

#[global] Instance Outcome_eq_dec : EqDecision Outcome.
Proof. solve_decision. Defined.

Record BatchResult := {
  outcome : Outcome;
  finalState : State;
  trace : list Event;   (* most recent first *)
}.

Definition setCompletedRuns (n : nat) (st : State) : State :=
  {| isExecuting := isExecuting st;
     activeWorkflowId := activeWorkflowId st;
     runCount := runCount st;
     completedRuns := n;
     isMultiRunning := isMultiRunning st;
     showRunProgress := showRunProgress st;
     isCancelling := isCancelling st;
     cancelFlagRef := cancelFlagRef st;
     notifications := notifications st;
     hideProgressScheduled := hideProgressScheduled st |}.

(** [onClick] of the cancel button. *)
Definition clickCancel (st : State) : State :=
  {| isExecuting := isExecuting st;
     activeWorkflowId := activeWorkflowId st;
     runCount := runCount st;
     completedRuns := completedRuns st;
     isMultiRunning := isMultiRunning st;
     showRunProgress := showRunProgress st;
     isCancelling := true;
     cancelFlagRef := true;
     notifications := notifications st;
     hideProgressScheduled := hideProgressScheduled st |}.

(** The resets at the start of a batch. *)
Definition startBatch (st : State) : State :=
  {| isExecuting := isExecuting st;
     activeWorkflowId := activeWorkflowId st;
     runCount := runCount st;
     completedRuns := 0;
     isMultiRunning := true;
     showRunProgress := bool_decide (1 < runCount st)%nat;
     isCancelling := false;
     cancelFlagRef := false;
     notifications := notifications st;
     hideProgressScheduled := hideProgressScheduled st |}.

(** The [finally] block up to the notification. *)
Definition endBatch (note : option Notification) (st : State) : State :=
  {| isExecuting := isExecuting st;
     activeWorkflowId := activeWorkflowId st;
     runCount := runCount st;
     completedRuns := completedRuns st;
     isMultiRunning := false;
     showRunProgress :=
       (if bool_decide (1 < runCount st)%nat then showRunProgress st else false);
     isCancelling := false;
     cancelFlagRef := false;
     notifications := notifications st ++ option_list note;
     hideProgressScheduled :=
       (if bool_decide (1 < runCount st)%nat then true
        else hideProgressScheduled st) |}.

(** How the [for] loop was left. *)
Inductive LoopExit :=
| Finished
| Cancelled
| Threw (error : JSValue).

Section Batch.

Variable E : Env.

(** [for (let i = 0; i < runCount; i++)], with [remaining = runCount - i]. *)
Fixpoint runLoop (remaining i : nat) (st : State) (tr : list Event)
    : LoopExit * State * list Event :=
  match remaining with
  | O => (Finished, st, tr)
  | S remaining' =>
      let tr1 := EvCheckCancel i (cancelFlagRef st) :: tr in
      if cancelFlagRef st then (Cancelled, st, tr1)
      else
        let r := handleRunWorkflow E i in
        let st1 := if cancelClicked r then clickCancel st else st in
        let tr2 := EvRun i r :: tr1 in
        match run_error r with
        | Some err => (Threw err, st1, tr2)
        | None => runLoop remaining' (S i) (setCompletedRuns (i + 1) st1) tr2
        end
  end.

Definition statsUrl (activeWorkflowId : string) (runCount : nat) : string :=
  "/api/workflows/" +:+ activeWorkflowId +:+ "/stats?runs=" +:+ pretty runCount.

(** [handleMultipleRuns], called in state [st0]; [None] is the early
    [return].  The handler is a closure over the render in which it was
    created, so [runCount], [activeWorkflowId] and the [completedRuns] of its
    success message are those of [st0]. *)
Definition handleMultipleRuns (st0 : State) : option BatchResult :=
  if isExecuting st0 || isMultiRunning st0 || bool_decide (runCount st0 <= 0)%nat
  then None
  else
    let '(exit, st, tr) := runLoop (runCount st0) 0 (startBatch st0) [] in
    let wasCancelled :=
      match exit with Cancelled => true | _ => false end in
    let workflowError :=
      match exit with Threw err => Some err | _ => None end in
    (* the statistics update, reached unless a run threw *)
    let tr :=
      match exit with
      | Threw _ => tr
      | _ =>
          if negb wasCancelled && truthy_str (activeWorkflowId st0)
          then
            let url := statsUrl (default "" (activeWorkflowId st0)) (runCount st0) in
            EvFetch url (fetch E url) :: tr
          else tr
      end in
    (* finally *)
    let '(result, note) :=
      if wasCancelled then
        (cancelled,
         Some {| n_type := info; n_message := "Workflow run cancelled";
                 n_workflowId := activeWorkflowId st0 |})
      else if truthy_opt workflowError then
        (failed,
         Some {| n_type := error;
                 n_message := "Failed to complete all workflow runs";
                 n_workflowId := activeWorkflowId st0 |})
      else
        (completed,
         if bool_decide (1 < runCount st0)%nat then
           Some {| n_type := console;
                   n_message := "Completed " +:+ pretty (completedRuns st0)
                                +:+ " workflow runs";
                   n_workflowId := activeWorkflowId st0 |}
         else None) in
    Some {| outcome := result; finalState := endBatch note st; trace := tr |}.

End Batch.

(** Observations on a trace, oldest first. *)
Definition runsExecuted (tr : list Event) : list nat :=
  omap (fun e => match e with EvRun i _ => Some i | _ => None end) (reverse tr).

Definition statsCalls (tr : list Event) : list string :=
  omap (fun e => match e with EvFetch url _ => Some url | _ => None end)
       (reverse tr).

(** The reason of the rejected run of a trace, if a run rejected. *)
Definition rejection (tr : list Event) : option JSValue :=
  head (omap (fun e => match e with EvRun _ r => run_error r | _ => None end) tr).

(** Some read of the cancel flag found it set. *)
Definition cancelObserved (tr : list Event) : bool :=
  existsb (fun e => match e with EvCheckCancel _ flag => flag | _ => false end) tr.

(** The trace of [k] runs from run [i], none of them preceded by a
    cancellation, oldest first. *)
Definition runEvents (E : Env) (i k : nat) : list Event :=
  flat_map (fun j => [EvCheckCancel j false; EvRun j (handleRunWorkflow E j)])
           (seq i k).

(** The same runs, another [fetch]. *)
Definition withFetch (f : string -> FetchResult) (E : Env) : Env :=
  {| handleRunWorkflow := handleRunWorkflow E; fetch := f |}.

(** *** The history dropdown *)

Record HistoryEntry := {
  action : string;
  timestamp : Z;
}.

Record WorkflowHistory := {
  past : list HistoryEntry;
  present : HistoryEntry;
  future : list HistoryEntry;
}.

(** One [HistoryDropdownItem]; [item_revertTo] is the argument its [onClick]
    hands to [revertToHistoryState], [None] for the click that does nothing. *)
Record HistoryItem := {
  item_key : string;
  item_action : string;
  item_timestamp : Z;
  item_revertTo : option Z;
  isFuture : bool;
  isCurrent : bool;
}.

(** The items of [renderHistoryDropdown], top to bottom; [None] is the
    "No history available" menu. *)
Definition historyItems (history : WorkflowHistory) : option (list HistoryItem) :=
  if bool_decide (length (past history) = 0%nat) &&
     bool_decide (length (future history) = 0%nat)
  then None
  else
    Some
      (imap (fun index entry =>
               {| item_key := "future-" +:+ pretty (timestamp entry) +:+ "-"
                              +:+ pretty index;
                  item_action := action entry;
                  item_timestamp := timestamp entry;
                  item_revertTo :=
                    Some (Z.of_nat (length (past history)) + 1 +
                          (Z.of_nat (length (future history)) - 1 - Z.of_nat index));
                  isFuture := true;
                  isCurrent := false |})
            (reverse (future history))
       ++ [ {| item_key := "current-" +:+ pretty (timestamp (present history));
               item_action := action (present history);
               item_timestamp := timestamp (present history);
               item_revertTo := None;
               isFuture := false;
               isCurrent := true |} ]
       ++ imap (fun index entry =>
                  {| item_key := "past-" +:+ pretty (timestamp entry) +:+ "-"
                                 +:+ pretty index;
                     item_action := action entry;
                     item_timestamp := timestamp entry;
                     item_revertTo :=
                       Some (Z.of_nat (length (past history)) - 1 - Z.of_nat index);
                     isFuture := false;
                     isCurrent := false |})
               (reverse (past history))).

(** The entries in the order of time: past, present, future. *)
Definition timeline (history : WorkflowHistory) : list HistoryEntry :=
  past history ++ [present history] ++ future history.

(** *** Watching for changes of a deployed workflow *)

Definition DEBOUNCE_DELAY : Z := 1000.
Definition THROTTLE_INTERVAL : Z := 3000.

(** The variables of the effect: the pending timeout (the time at which it
    is due), the time of the last check, and the count of changes seen since. *)
Record ChangeWatch := {
  debounceTimer : option Z;
  lastCheckTime : Z;
  pendingChanges : Z;
}.

(** [debouncedCheck], called when [Date.now()] is [now]: any pending timeout
    is cleared and a new one is set, due [delay] after [now] (the call of
    [setTimeout] and the read of the clock are taken to be simultaneous). *)
Definition debouncedCheck (now : Z) (w : ChangeWatch) : ChangeWatch :=
  let pendingChanges := pendingChanges w + 1 in
  let timeElapsed := now - lastCheckTime w in
  if (timeElapsed <? THROTTLE_INTERVAL) && (0 <? lastCheckTime w) then
    let adjustedDelay := Z.max (THROTTLE_INTERVAL - timeElapsed) DEBOUNCE_DELAY in
    {| debounceTimer := Some (now + adjustedDelay);
       lastCheckTime := lastCheckTime w;
       pendingChanges := pendingChanges |}
  else
    {| debounceTimer := Some (now + DEBOUNCE_DELAY);
       lastCheckTime := lastCheckTime w;
       pendingChanges := pendingChanges |}.

(** The timeout fires when [Date.now()] is [now]: [checkForChanges] runs if
    changes are pending, and returns at once if redeployment is already
    known to be needed.  The boolean tells whether the status is fetched.
    A timeout that has fired is no longer pending. *)
Definition timeoutFires (now : Z) (needsRedeployment : bool) (w : ChangeWatch)
    : ChangeWatch * bool :=
  let w := {| debounceTimer := None;
              lastCheckTime := lastCheckTime w;
              pendingChanges := pendingChanges w |} in
  if 0 <? pendingChanges w then
    if needsRedeployment then (w, false)
    else ({| debounceTimer := None; lastCheckTime := now; pendingChanges := 0 |}, true)
  else (w, false).

(** *** Deleting the active workflow *)

Inductive DeleteEffect :=
| RouterPush (url : string)
| RemoveWorkflow (id : string).

(** [handleDeleteWorkflow]; [workflowIds] is [Object.keys(workflows)]. *)
Definition handleDeleteWorkflow (activeWorkflowId : option string)
    (workflowIds : list string) : list DeleteEffect :=
  if negb (truthy_str activeWorkflowId) then []
  else
    let active := default "" activeWorkflowId in
    let remainingIds := filter (fun id => id <> active) workflowIds in
    [ match remainingIds with
      | id :: _ => RouterPush ("/w/" +:+ id)
      | [] => RouterPush "/"
      end;
      RemoveWorkflow active ].

End ControlBar.

(** ** Concrete worlds and requests *)

Module ProviderExamples.
Import OpenAI.

(** A clock that advances by one at every interaction. *)
Definition tickClock (h : History) : Z := Z.of_nat (length h).

(** The double quote, and the JSON text of an object with the one member
    [limit], of value 1. *)
Definition dquote : string := String (Ascii.ascii_of_nat 34) EmptyString.

Definition limitOneJSON : string :=
  "{" +:+ dquote +:+ "limit" +:+ dquote +:+ ":1}".

(** [JSON.parse] on the two argument strings used below, [limitOneJSON] and
    the empty object; the examples parse no other string. *)
Definition parseArgs (s : string) : option JSValue :=
  if bool_decide (s = limitOneJSON) then Some (JObj {[ "limit" := JNum 1 ]})
  else if bool_decide (s = "{}") then Some (JObj ∅)
  else None.

Definition lookupTool : ProviderToolConfig :=
  {| tool_id := "lookup";
     tool_description := "look something up";
     tool_parameters := JNull;
     tool_params := Some {[ "region" := JStr "eu"; "limit" := JNum 5 ]} |}.

Definition callA : ToolCall :=
  {| tc_id := "call_a"; fn_name := "lookup"; fn_arguments := limitOneJSON |}.

Definition callB : ToolCall :=
  {| tc_id := "call_b"; fn_name := "lookup"; fn_arguments := "{}" |}.

Definition callMissing : ToolCall :=
  {| tc_id := "call_m"; fn_name := "missing"; fn_arguments := "{}" |}.

Definition completionWith (text : option string) (calls : option (list ToolCall))
    (p c t : N) : Completion :=
  {| choices := [ {| choice_message :=
                       Some {| cm_content := text; cm_tool_calls := calls |} |} ];
     usage := Some {| prompt_tokens := Some p;
                      completion_tokens := Some c;
                      total_tokens := Some t |} |}.

Definition askLookup : Completion := completionWith None (Some [callA]) 3 2 5.

Definition sayDone : Completion := completionWith (Some "done") None 7 1 8.

Definition toolOk : ToolResponse := {| success := true; output := JStr "ok" |}.

Definition toolKo : ToolResponse := {| success := false; output := JNull |}.

(** A provider that asks for the lookup tool in every response. *)
Definition toolHungry : World :=
  {| Date_now := tickClock;
     create := fun _ _ => inr askLookup;
     executeTool := fun _ _ _ => inr toolOk;
     JSON_parse := parseArgs;
     JSON_stringify := fun _ => "ok";
     toISOString := fun _ => "1970-01-01T00:00:00.000Z" |}.

(** A provider that asks for the lookup tool once and then answers. *)
Definition oneRound : World :=
  {| Date_now := tickClock;
     create := fun h _ => if bool_decide (modelCalls h = 0%nat)
                          then inr askLookup else inr sayDone;
     executeTool := fun _ _ _ => inr toolOk;
     JSON_parse := parseArgs;
     JSON_stringify := fun _ => "ok";
     toISOString := fun _ => "1970-01-01T00:00:00.000Z" |}.

(** The same, with a tool that reports failure. *)
Definition failingTool : World :=
  {| Date_now := tickClock;
     create := fun h _ => if bool_decide (modelCalls h = 0%nat)
                          then inr askLookup else inr sayDone;
     executeTool := fun _ _ _ => inr toolKo;
     JSON_parse := parseArgs;
     JSON_stringify := fun _ => "ok";
     toISOString := fun _ => "1970-01-01T00:00:00.000Z" |}.

Definition request : ProviderRequest :=
  {| req_model := None;
     systemPrompt := Some "You are terse.";
     context := None;
     tools := Some [lookupTool];
     messages := None;
     temperature := None;
     maxTokens := None;
     apiKey := Some "sk-test";
     responseFormat := None |}.

Definition requestWithoutKey : ProviderRequest :=
  {| req_model := None;
     systemPrompt := Some "You are terse.";
     context := None;
     tools := Some [lookupTool];
     messages := None;
     temperature := None;
     maxTokens := None;
     apiKey := None;
     responseFormat := None |}.

(** Loop variables with nothing recorded yet. *)
Definition freshState : LoopState :=
  {| currentResponse := askLookup;
     st_content := "";
     tokens := {| prompt := 0; completion := 0; total := 0 |};
     toolCalls := [];
     toolResults := [];
     currentMessages := [];
     iterationCount := 0;
     st_modelTime := 0;
     st_toolsTime := 0;
     st_timeSegments := [];
     st_firstResponseTime := 0 |}.

(** A provider that answers at once, without asking for a tool. *)
Definition answersAtOnce : World :=
  {| Date_now := tickClock;
     create := fun _ _ => inr sayDone;
     executeTool := fun _ _ _ => inr toolOk;
     JSON_parse := parseArgs;
     JSON_stringify := fun _ => "ok";
     toISOString := fun _ => "1970-01-01T00:00:00.000Z" |}.

(** A provider that asks for the lookup tool once and then fails. *)
Definition failsSecondCall : World :=
  {| Date_now := tickClock;
     create := fun h _ => if bool_decide (modelCalls h = 0%nat)
                          then inr askLookup else inl "503 upstream";
     executeTool := fun _ _ _ => inr toolOk;
     JSON_parse := parseArgs;
     JSON_stringify := fun _ => "ok";
     toISOString := fun _ => "1970-01-01T00:00:00.000Z" |}.

End ProviderExamples.

Module BatchExamples.
Import ControlBar.

Definition idle (n : nat) : State :=
  {| isExecuting := false;
     activeWorkflowId := Some "wf-1";
     runCount := n;
     completedRuns := 0;
     isMultiRunning := false;
     showRunProgress := false;
     isCancelling := false;
     cancelFlagRef := false;
     notifications := [];
     hideProgressScheduled := false |}.

(** Every run succeeds; the user clicks cancel during the second run. *)
Definition cancelDuringSecond : Env :=
  {| handleRunWorkflow := fun i =>
       {| run_error := None; cancelClicked := bool_decide (i = 1%nat) |};
     fetch := fun _ => FetchRejects "offline" |}.

(** Every run succeeds and nobody cancels; the statistics call fails. *)
Definition allSucceed : Env :=
  {| handleRunWorkflow := fun _ => {| run_error := None; cancelClicked := false |};
     fetch := fun _ => FetchThrows "offline" |}.

(** The third run rejects. *)
Definition failsOnThird : Env :=
  {| handleRunWorkflow := fun i =>
       {| run_error := (if bool_decide (i = 2%nat)
                        then Some (JObj {[ "message" := JStr "boom" ]})
                        else None);
          cancelClicked := false |};
     fetch := fun _ => FetchResolves |}.

(** The third run rejects with the empty string as its reason. *)
Definition failsQuietlyOnThird : Env :=
  {| handleRunWorkflow := fun i =>
       {| run_error := (if bool_decide (i = 2%nat) then Some (JStr "") else None);
          cancelClicked := false |};
     fetch := fun _ => FetchResolves |}.

(** Every run succeeds; the user clicks cancel during the last of three. *)
Definition cancelDuringLast : Env :=
  {| handleRunWorkflow := fun i =>
       {| run_error := None; cancelClicked := bool_decide (i = 2%nat) |};
     fetch := fun _ => FetchResolves |}.

Definition sampleHistory : WorkflowHistory :=
  {| past := [ {| action := "add block"; timestamp := 10 |};
               {| action := "move block"; timestamp := 20 |} ];
     present := {| action := "rename"; timestamp := 30 |};
     future := [ {| action := "delete edge"; timestamp := 40 |} ] |}.

End BatchExamples.

(** * Properties of the provider loop *)

Module OpenAIFacts.
Import OpenAI.

(** ** Object spread *)

Lemma copyProps_union (src target : Obj) : copyProps src target = src ∪ target.
Proof.
  unfold copyProps.
  induction src as [|k v src Hk Hfold IH] using map_first_key_ind.
  - rewrite map_fold_empty. by rewrite (left_id_L ∅ (∪)).
  - rewrite map_fold_insert_first_key by done.
    rewrite IH. by rewrite insert_union_l.
Qed.

Lemma spread_lookup (a b : Obj) (k : string) :
  spread a b !! k = match b !! k with Some v => Some v | None => a !! k end.
Proof.
  unfold spread. rewrite !copyProps_union, (right_id_L ∅ (∪)).
  rewrite lookup_union. destruct (b !! k), (a !! k); reflexivity.
Qed.

(** ** Computations *)

Lemma bind_Ok {A B} (m : M A) (k : A -> M B) h b h' :
  (m ≫= k) h = (Ok b, h') ->
  exists a h1, m h = (Ok a, h1) /\ k a h1 = (Ok b, h').
Proof.
  unfold mbind, M_bind. destruct (m h) as [[a|e|] h1]; intros E; try discriminate.
  by exists a, h1.
Qed.

(** ** Observations on a history *)

Lemma createCalls_now t h : createCalls (EvNow t :: h) = createCalls h.
Proof.
  unfold createCalls. rewrite reverse_cons, omap_app. simpl. by rewrite app_nil_r.
Qed.

Lemma createCalls_tool n a r h : createCalls (EvTool n a r :: h) = createCalls h.
Proof.
  unfold createCalls. rewrite reverse_cons, omap_app. simpl. by rewrite app_nil_r.
Qed.

Lemma createCalls_create p r h :
  createCalls (EvCreate p r :: h) = createCalls h ++ [(p, r)].
Proof. unfold createCalls. by rewrite reverse_cons, omap_app. Qed.

Lemma toolExecutions_now t h : toolExecutions (EvNow t :: h) = toolExecutions h.
Proof.
  unfold toolExecutions. rewrite reverse_cons, omap_app. simpl.
  by rewrite app_nil_r.
Qed.

Lemma toolExecutions_tool n a r h :
  toolExecutions (EvTool n a r :: h) = toolExecutions h ++ [(n, a, r)].
Proof. unfold toolExecutions. by rewrite reverse_cons, omap_app. Qed.

Lemma successOutputs_now t h : successOutputs (EvNow t :: h) = successOutputs h.
Proof. unfold successOutputs. by rewrite toolExecutions_now. Qed.

Lemma successOutputs_tool n a r h :
  successOutputs (EvTool n a r :: h) =
  successOutputs h ++
    match r with
    | inr x => if success x then [output x] else []
    | inl _ => []
    end.
Proof.
  unfold successOutputs. rewrite toolExecutions_tool, omap_app. simpl.
  destruct r as [?|x]; [done|]. by destruct (success x).
Qed.

Lemma completions_snoc h h' p c :
  createCalls h' = createCalls h ++ [(p, inr c)] ->
  completions h' = completions h ++ [c] /\ modelCalls h' = S (modelCalls h).
Proof.
  intros E. unfold completions, modelCalls. rewrite E, omap_app, length_app.
  simpl. split; [done|lia].
Qed.

Lemma segmentTime_app k a b :
  segmentTime k (a ++ b) = segmentTime k a + segmentTime k b.
Proof.
  induction a as [|s a IH]; simpl; [lia|].
  case_bool_decide; lia.
Qed.

Lemma usageSum_snoc f cs c :
  usageSum f (cs ++ [c]) = (usageSum f cs + usageOr0 f c)%N.
Proof. induction cs as [|x cs IH]; simpl; [lia|]. rewrite IH. lia. Qed.

Lemma addUsage_fields tk c :
  prompt (addUsage tk c) = (prompt tk + usageOr0 prompt_tokens c)%N /\
  completion (addUsage tk c) = (completion tk + usageOr0 completion_tokens c)%N /\
  total (addUsage tk c) = (total tk + usageOr0 total_tokens c)%N.
Proof.
  unfold addUsage, usageOr0. destruct (usage c) as [u|]; simpl; [done|].
  repeat split; lia.
Qed.

Section Facts.

Variable W : World.

(** ** One tool call *)

Lemma processToolCall_step request toolCall st h :
  exists st' h', processToolCall W request toolCall st h = (Ok st', h') /\
                 ToolStep W request toolCall st h st' h'.
Proof.
  unfold processToolCall, tryCatch, parseJSON, mbind, M_bind.
  destruct (JSON_parse W (fn_arguments toolCall)) as [toolArgs|] eqn:Hp; simpl.
  2:{ eexists _, _; split; [reflexivity|]. constructor; auto. }
  destruct (findTool request (fn_name toolCall)) as [t|] eqn:Hf; simpl.
  2:{ eexists _, _; split; [reflexivity|]. constructor; auto. }
  unfold callExecuteTool.
  destruct (executeTool W _ _ _) as [msg|result] eqn:He; simpl.
  - eexists _, _; split; [reflexivity|]. eapply step_threw; eauto.
  - pose proof (step_returned W request toolCall st h toolArgs t result Hp Hf He) as X.
    simpl in X.
    destruct (success result) eqn:Hs; simpl;
      (eexists _, _; split; [reflexivity|exact X]).
Qed.

Lemma processToolCall_unresolved request toolCall st h :
  findTool request (fn_name toolCall) = None ->
  processToolCall W request toolCall st h = (Ok st, h).
Proof.
  intros Hf. unfold processToolCall, tryCatch, parseJSON, mbind, M_bind.
  destruct (JSON_parse W (fn_arguments toolCall)); simpl; [|done].
  by rewrite Hf.
Qed.

Lemma ToolStep_frame request toolCall st h st' h' :
  ToolStep W request toolCall st h st' h' ->
  sameLoopVars st st' /\ createCalls h' = createCalls h.
Proof.
  unfold sameLoopVars.
  intros [ | toolArgs t msg Hp Hf h1 He | toolArgs t result Hp Hf h1 He h2 ].
  - done.
  - subst h1. by rewrite createCalls_tool, createCalls_now.
  - subst h2 h1. rewrite createCalls_now, createCalls_tool, createCalls_now.
    destruct (success result); simpl; [|done].
    rewrite segmentTime_app. simpl. repeat split; try done. lia.
Qed.

Lemma ToolStep_transcript request toolCall st h st' h' :
  ToolStep W request toolCall st h st' h' ->
  exists l,
    map fst l `sublist_of` [toolCall] /\
    Forall (resolved request) (map fst l) /\
    currentMessages st' = currentMessages st ++ pairMessages W l /\
    toolResults st' = toolResults st ++ map snd l /\
    successOutputs h' = successOutputs h ++ map snd l.
Proof.
  intros [ | toolArgs t msg Hp Hf h1 He | toolArgs t result Hp Hf h1 He h2 ].
  - exists []. simpl. rewrite !app_nil_r. repeat split; try done.
    apply sublist_nil_l.
  - exists []. subst h1. simpl.
    rewrite successOutputs_tool, successOutputs_now, !app_nil_r.
    repeat split; try done. apply sublist_nil_l.
  - subst h2 h1.
    rewrite successOutputs_now, successOutputs_tool, successOutputs_now.
    destruct (success result) eqn:Hs.
    + exists [(toolCall, output result)]. simpl.
      repeat split; try done.
      constructor; [|done]. by exists t.
    + exists []. simpl. rewrite !app_nil_r. repeat split; try done.
      apply sublist_nil_l.
Qed.

(** ** The [for] loop over the requested tool calls *)

(** Any property of the loop variables and the history that every tool call
    preserves holds after the [for] loop, which always runs to its end. *)
Lemma forToolCalls_inv (P : LoopState -> History -> Prop) request :
  (forall toolCall st h st' h',
      P st h -> ToolStep W request toolCall st h st' h' -> P st' h') ->
  forall tcs st h, P st h ->
  exists st' h', forToolCalls W request tcs st h = (Ok st', h') /\ P st' h'.
Proof.
  intros Hstep tcs. induction tcs as [|toolCall rest IH]; intros st h HP; simpl.
  - eexists _, _; split; [reflexivity|done].
  - destruct (processToolCall_step request toolCall st h) as (st1 & h1 & E1 & S1).
    destruct (IH st1 h1 (Hstep _ _ _ _ _ HP S1)) as (st' & h' & E' & HP').
    exists st', h'. split; [|done].
    unfold mbind, M_bind. by rewrite E1.
Qed.

Lemma forToolCalls_frame request tcs st h :
  exists st' h', forToolCalls W request tcs st h = (Ok st', h') /\
                 sameLoopVars st st' /\ createCalls h' = createCalls h.
Proof.
  apply (forToolCalls_inv
           (fun st' h' => sameLoopVars st st' /\ createCalls h' = createCalls h)).
  - intros toolCall s1 h1 s2 h2 [F1 C1] S.
    destruct (ToolStep_frame _ _ _ _ _ _ S) as [F2 C2].
    split; [|congruence].
    unfold sameLoopVars in *. intuition congruence.
  - split; [unfold sameLoopVars; tauto|done].
Qed.

Lemma forToolCalls_app request tcs1 tcs2 st :
  forall h,
  forToolCalls W request (tcs1 ++ tcs2) st h =
  (forToolCalls W request tcs1 st ≫= forToolCalls W request tcs2) h.
Proof.
  revert st. induction tcs1 as [|toolCall rest IH]; intros st h; simpl.
  - done.
  - unfold mbind, M_bind.
    destruct (processToolCall W request toolCall st h) as [[st1|e|] h1];
      [apply IH|done|done].
Qed.

Lemma pairMessages_app l1 l2 :
  pairMessages W (l1 ++ l2) = pairMessages W l1 ++ pairMessages W l2.
Proof. apply flat_map_app. Qed.


Lemma forToolCalls_transcript request tcs :
  forall st h, exists st' h' l,
    forToolCalls W request tcs st h = (Ok st', h') /\
    map fst l `sublist_of` tcs /\
    Forall (resolved request) (map fst l) /\
    currentMessages st' = currentMessages st ++ pairMessages W l /\
    toolResults st' = toolResults st ++ map snd l /\
    successOutputs h' = successOutputs h ++ map snd l.
Proof.
  induction tcs as [|toolCall rest IH]; intros st h; simpl.
  - exists st, h, []. simpl. rewrite !app_nil_r. repeat split; done.
  - destruct (processToolCall_step request toolCall st h) as (st1 & h1 & E1 & S1).
    apply ToolStep_transcript in S1 as (l1 & Sl1 & R1 & M1 & T1 & O1).
    destruct (IH st1 h1) as (st' & h' & l2 & E2 & Sl2 & R2 & M2 & T2 & O2).
    exists st', h', (l1 ++ l2).
    unfold mbind, M_bind. rewrite E1.
    rewrite map_app, pairMessages_app, map_app, M2, T2, O2, M1, T1, O1, !app_assoc.
    repeat split; try done.
    + change (toolCall :: rest) with ([toolCall] ++ rest). by apply sublist_app.
    + by apply Forall_app.
Qed.

(** ** The body of the [while] loop *)

Lemma whileBody_unfold request payload tcs st h :
  exists st1 h1,
    forToolCalls W request tcs st (EvNow (Date_now W h) :: h) = (Ok st1, h1) /\
    let toolsStartTime := Date_now W h in
    let t := Date_now W h1 in
    let h2 := EvNow t :: h1 in
    let nextModelStartTime := Date_now W h2 in
    let h3 := EvNow nextModelStartTime :: h2 in
    let nextPayload := withMessages payload (currentMessages st1) in
    let r := create W h3 nextPayload in
    let h4 := EvCreate nextPayload r :: h3 in
    let nextModelEndTime := Date_now W h4 in
    whileBody W request payload tcs st h =
      match r with
      | inl msg => (Throw (mkError msg), h4)
      | inr response =>
          (Ok (recordModelCall response (t - toolsStartTime)
                 nextModelStartTime nextModelEndTime st1),
           EvNow nextModelEndTime :: h4)
      end.
Proof.
  destruct (forToolCalls_frame request tcs st (EvNow (Date_now W h) :: h))
    as (st1 & h1 & E1 & _).
  exists st1, h1. split; [done|]. intros.
  unfold whileBody, mbind, M_bind, now. simpl. rewrite E1. simpl.
  unfold callCreate. fold nextPayload.
  subst r h4 nextModelEndTime h3 nextModelStartTime h2 t.
  destruct (create W _ nextPayload); reflexivity.
Qed.

Lemma whileBody_Ok request payload tcs st h st' h' :
  whileBody W request payload tcs st h = (Ok st', h') ->
  exists st1 h1 response,
    forToolCalls W request tcs st (EvNow (Date_now W h) :: h) = (Ok st1, h1) /\
    sameLoopVars st st1 /\
    createCalls h' = createCalls h ++
      [(withMessages payload (currentMessages st1), inr response)] /\
    currentResponse st' = response /\
    tokens st' = addUsage (tokens st1) response /\
    iterationCount st' = iterationCount st + 1 /\
    currentMessages st' = currentMessages st1 /\
    toolResults st' = toolResults st1 /\
    st_firstResponseTime st' = st_firstResponseTime st /\
    (exists seg, seg_type seg = model /\
       st_timeSegments st' = st_timeSegments st1 ++ [seg] /\
       st_modelTime st' = st_modelTime st + seg_duration seg) /\
    st_toolsTime st' = st_toolsTime st + (Date_now W h1 - Date_now W h).
Proof.
  intros E.
  destruct (whileBody_unfold request payload tcs st h) as (st1 & h1 & E1 & E2).
  simpl in E2. rewrite E2 in E. clear E2.
  destruct (forToolCalls_frame request tcs st (EvNow (Date_now W h) :: h))
    as (st1' & h1' & E1' & F & C).
  rewrite E1 in E1'. injection E1' as <- <-.
  destruct (create W _ _) as [msg|response] eqn:Hc; [discriminate|].
  injection E as <- <-.
  exists st1, h1, response. split; [done|]. split; [done|].
  destruct F as (F1 & F2 & F3 & F4 & F5 & F6 & F7 & F8).
  simpl. rewrite createCalls_now, createCalls_create, !createCalls_now, C, createCalls_now.
  repeat split; try done; try congruence.
  eexists. split; [|split; [reflexivity|]]; [done|]. simpl. congruence.
Qed.

Lemma whileBody_progress request payload tcs st h :
  (exists msg h', whileBody W request payload tcs st h = (Throw (mkError msg), h')) \/
  (exists st' h', whileBody W request payload tcs st h = (Ok st', h')).
Proof.
  destruct (whileBody_unfold request payload tcs st h) as (st1 & h1 & E1 & E2).
  simpl in E2. rewrite E2. destruct (create W _ _); eauto.
Qed.

(** ** The [while] loop *)

(** The loop run from a state of [Iter] ends in a state of [Iter] at which
    the loop exits. *)
Lemma whileLoop_Iter request fuel :
  forall n st h st' h',
    Iter W request n st h ->
    whileLoop W fuel request (buildPayload request) st h = (Ok st', h') ->
    exists m, Iter W request m st' h' /\ loopExits st'.
Proof.
  induction fuel as [|fuel IH]; intros n st h st' h' HI E.
  - simpl in E.
    destruct (iterationCount st <? MAX_ITERATIONS) eqn:G.
    + destruct (responseToolCalls (currentResponse st)) as [[|tc rest]|] eqn:T;
        try discriminate;
        injection E as <- <-; exists n; (split; [done|]); unfold loopExits; auto.
    + injection E as <- <-. exists n. split; [done|]. unfold loopExits; auto.
  - simpl in E.
    destruct (iterationCount st <? MAX_ITERATIONS) eqn:G.
    + destruct (responseToolCalls (currentResponse st)) as [[|tc rest]|] eqn:T.
      * injection E as <- <-. exists n. split; [done|]. unfold loopExits; auto.
      * apply bind_Ok in E as (st1 & h1 & E1 & E2).
        eapply IH; [|exact E2].
        eapply Iter_step; eauto.
      * injection E as <- <-. exists n. split; [done|]. unfold loopExits; auto.
    + injection E as <- <-. exists n. split; [done|]. unfold loopExits; auto.
Qed.

(** The fuel handed to the loop is enough: it never runs out. *)
Lemma whileLoop_fuel request payload fuel :
  forall st h,
    MAX_ITERATIONS <= iterationCount st + Z.of_nat fuel ->
    fst (whileLoop W fuel request payload st h) <> OutOfFuel.
Proof.
  induction fuel as [|fuel IH]; intros st h Hf; simpl.
  - destruct (iterationCount st <? MAX_ITERATIONS) eqn:G.
    + apply Z.ltb_lt in G. lia.
    + done.
  - destruct (iterationCount st <? MAX_ITERATIONS) eqn:G; [|done].
    destruct (responseToolCalls (currentResponse st)) as [[|tc rest]|]; try done.
    destruct (whileBody_progress request payload (tc :: rest) st h)
      as [(msg & h1 & E)|(st1 & h1 & E)];
      unfold mbind, M_bind; rewrite E; [done|].
    apply IH.
    apply whileBody_Ok in E as (? & ? & ? & _ & _ & _ & _ & _ & Hi & _).
    lia.
Qed.

Lemma initialCall_Ok request payload h st h' :
  initialCall W request payload h = (Ok st, h') ->
  exists response seg,
    createCalls h' = createCalls h ++ [(payload, inr response)] /\
    currentResponse st = response /\
    tokens st = {| prompt := usageOr0 prompt_tokens response;
                   completion := usageOr0 completion_tokens response;
                   total := usageOr0 total_tokens response |} /\
    iterationCount st = 0 /\
    currentMessages st = allMessages request /\
    st_toolsTime st = 0 /\
    seg_type seg = model /\
    st_timeSegments st = [seg] /\
    st_modelTime st = seg_duration seg.
Proof.
  unfold initialCall, mbind, M_bind, now, callCreate. simpl.
  destruct (create W _ payload) as [msg|response] eqn:Hc; [discriminate|].
  intros E. injection E as <- <-.
  eexists response, _. simpl.
  rewrite createCalls_now, createCalls_create, createCalls_now.
  repeat split; reflexivity.
Qed.

(** A run that returns has left the loop from one of the states of [Iter]. *)
Lemma executeRequest_Ok request response h' :
  executeRequest W request [] = (Ok response, h') ->
  exists n st h,
    Iter W request n st h /\ loopExits st /\
    response = buildResponse W request (Date_now W []) (Date_now W h) st /\
    h' = EvNow (Date_now W h) :: h.
Proof.
  unfold executeRequest.
  destruct (truthy_str (apiKey request)); simpl; [|discriminate].
  intros E. apply bind_Ok in E as (t0 & h0 & E0 & E).
  unfold now in E0. injection E0 as <- <-.
  unfold tryCatch in E.
  destruct (tryBlock W request (buildPayload request) (Date_now W []) _)
    as [[r|e|] h1] eqn:Et.
  - injection E as <- <-.
    unfold tryBlock in Et.
    apply bind_Ok in Et as (st0 & hi & Ei & Et).
    apply bind_Ok in Et as (st & hl & El & Et).
    apply bind_Ok in Et as (te & he & Ee & Et).
    unfold now in Ee. injection Ee as <- <-.
    injection Et as <- <-.
    destruct (whileLoop_Iter request _ 0%nat st0 hi st hl (Iter_init W _ _ _ Ei) El)
      as (m & Hm & Hx).
    by exists m, st, hl.
  - unfold catchBlock, mbind, M_bind, now, throw in E. discriminate.
  - discriminate.
Qed.

(** The run never reports [OutOfFuel]: the loop is bounded by its guard. *)
Lemma executeRequest_fuel request h :
  fst (executeRequest W request h) <> OutOfFuel.
Proof.
  unfold executeRequest.
  destruct (truthy_str (apiKey request)); simpl; [|done].
  unfold mbind at 1, M_bind at 1, now at 1, tryCatch.
  destruct (tryBlock W request _ _ _) as [[r|e|] h1] eqn:Et; simpl; [done| |].
  - unfold catchBlock, mbind, M_bind, now, throw. done.
  - exfalso. unfold tryBlock in Et.
    unfold mbind at 1, M_bind at 1 in Et.
    destruct (initialCall W request _ _) as [[st0|e|] hi] eqn:Ei; try discriminate.
    + unfold mbind at 1, M_bind at 1 in Et.
      pose proof (whileLoop_fuel request (buildPayload request)
                    (Z.to_nat MAX_ITERATIONS) st0 hi) as X.
      apply initialCall_Ok in Ei as (_ & _ & _ & _ & _ & I & _).
      destruct (whileLoop W _ request _ st0 hi) as [[st|e|] hl]; try discriminate.
      apply X; [|done]. rewrite I. done.
    + unfold initialCall, mbind, M_bind, now, callCreate in Ei.
      destruct (create W _ _); discriminate.
Qed.

(** ** Invariants of the loop *)

Lemma Iter_facts request n st h :
  Iter W request n st h ->
  iterationCount st = Z.of_nat n /\
  modelCalls h = S n /\
  length (completions h) = S n /\
  last (completions h) = Some (currentResponse st) /\
  prompt (tokens st) = usageSum prompt_tokens (completions h) /\
  completion (tokens st) = usageSum completion_tokens (completions h) /\
  total (tokens st) = usageSum total_tokens (completions h) /\
  st_modelTime st = segmentTime model (st_timeSegments st).
Proof.
  induction 1 as [st h E | n st h tcs st' h' HI IH G T Hne E].
  - apply initialCall_Ok in E
      as (c & seg & C & R & Tk & I & _ & _ & Sg & Ss & Sm).
    rewrite createCalls_now in C.
    change (createCalls []) with (@nil (Payload * (string + Completion))) in C.
    apply (completions_snoc []) in C as [C1 C2].
    rewrite C1, C2, Tk, I, Ss, Sm, R. simpl. rewrite Sg. simpl.
    repeat split; try done; lia.
  - destruct IH as (I & MC & L & La & P & Cm & To & Mt).
    apply whileBody_Ok in E
      as (st1 & h1 & c & _ & F & C & R & Tk & I' & _ & _ & _ & (seg & Sg & Ss & Sm) & _).
    apply completions_snoc in C as [C1 C2].
    destruct F as (_ & _ & F3 & _ & _ & _ & _ & F8).
    destruct (addUsage_fields (tokens st1) c) as (A1 & A2 & A3).
    rewrite C1, C2, Tk, I', Ss, Sm, R, !usageSum_snoc, length_app, last_snoc,
      segmentTime_app, F8, A1, A2, A3, F3, P, Cm, To, Mt.
    simpl. rewrite Sg. simpl.
    repeat split; try done; lia.
Qed.

Lemma Iter_first request n st h c0 :
  Iter W request n st h ->
  head (completions h) = Some c0 ->
  (n = 0%nat /\ currentResponse st = c0) \/
  (exists toolCall rest, responseToolCalls c0 = Some (toolCall :: rest)).
Proof.
  induction 1 as [st h E | n st h tcs st' h' HI IH G T Hne E]; intros Hh.
  - left. split; [done|].
    pose proof (Iter_facts _ _ _ _ (Iter_init W _ _ _ E)) as (_ & _ & L & La & _).
    destruct (completions h) as [|x [|y l]]; simpl in *; try discriminate.
    congruence.
  - right.
    pose proof (Iter_facts _ _ _ _ HI) as (_ & _ & L & _).
    apply whileBody_Ok in E as (st1 & h1 & c & _ & _ & C & _).
    apply completions_snoc in C as [C1 _].
    rewrite C1 in Hh.
    destruct (completions h) as [|x l] eqn:Hc; [discriminate|].
    simpl in Hh. injection Hh as ->.
    destruct (IH eq_refl) as [[-> R]|X]; [|done].
    destruct tcs as [|tc rest]; [done|].
    exists tc, rest. congruence.
Qed.

(** ** A provider that always asks for tools *)

Lemma whileBody_always request payload tcs st h :
  alwaysRequestsTools W ->
  exists st' h',
    whileBody W request payload tcs st h = (Ok st', h') /\
    iterationCount st' = iterationCount st + 1 /\
    modelCalls h' = S (modelCalls h) /\
    exists toolCall rest,
      responseToolCalls (currentResponse st') = Some (toolCall :: rest).
Proof.
  intros HA.
  destruct (whileBody_unfold request payload tcs st h) as (st1 & h1 & E1 & E2).
  simpl in E2.
  match type of E2 with context [create W ?hh ?pp] =>
    destruct (HA hh pp) as (c & toolCall & rest & Hc & Ht) end.
  rewrite Hc in E2.
  eexists _, _. split; [exact E2|].
  pose proof E2 as E3.
  apply whileBody_Ok in E3 as (? & ? & c' & _ & _ & C & _ & _ & I & _).
  apply completions_snoc in C as [_ C2].
  split; [done|]. split; [done|]. by exists toolCall, rest.
Qed.

Lemma whileLoop_always request payload fuel :
  alwaysRequestsTools W ->
  forall st h,
    (exists toolCall rest,
        responseToolCalls (currentResponse st) = Some (toolCall :: rest)) ->
    iterationCount st + Z.of_nat fuel = MAX_ITERATIONS ->
    exists st' h',
      whileLoop W fuel request payload st h = (Ok st', h') /\
      modelCalls h' = (modelCalls h + fuel)%nat /\
      iterationCount st' = MAX_ITERATIONS.
Proof.
  intros HA. induction fuel as [|fuel IH]; intros st h (tc & rest & T) Hi; simpl.
  - replace (iterationCount st <? MAX_ITERATIONS) with false
      by (symmetry; apply Z.ltb_ge; lia).
    exists st, h. repeat split; [lia|lia].
  - replace (iterationCount st <? MAX_ITERATIONS) with true
      by (symmetry; apply Z.ltb_lt; lia).
    rewrite T.
    destruct (whileBody_always request payload (tc :: rest) st h HA)
      as (st1 & h1 & E1 & I1 & M1 & T1).
    destruct (IH st1 h1 T1) as (st' & h' & E' & M' & I'); [lia|].
    exists st', h'. unfold mbind, M_bind. rewrite E1.
    repeat split; [done|lia|done].
Qed.

(** ** Time spent in tools *)

Lemma clock_mono_app (HM : clockMonotone W) h' h :
  Date_now W h <= Date_now W (h' ++ h).
Proof.
  induction h' as [|e h' IH]; simpl; [lia|].
  specialize (HM (h' ++ h) e). lia.
Qed.

Lemma ToolStep_toolTime request toolCall st h st' h' :
  clockMonotone W ->
  ToolStep W request toolCall st h st' h' ->
  segmentTime tool (st_timeSegments st') - segmentTime tool (st_timeSegments st)
    <= Date_now W h' - Date_now W h.
Proof.
  intros HM [ | toolArgs t msg Hp Hf h1 He | toolArgs t result Hp Hf h1 He h2 ].
  - lia.
  - pose proof (clock_mono_app HM
      [EvTool (fn_name toolCall) (mergeArgs t toolArgs) (inl msg);
       EvNow (Date_now W h)] h).
    subst h1. simpl in *. lia.
  - pose proof (HM h2 (EvNow (Date_now W h2))).
    pose proof (clock_mono_app HM
      [EvTool (fn_name toolCall) (mergeArgs t toolArgs) (inr result);
       EvNow (Date_now W h)] h) as X.
    change (_ ++ h) with h2 in X.
    destruct (success result); simpl; [|lia].
    rewrite segmentTime_app. simpl. lia.
Qed.

Lemma forToolCalls_toolTime request tcs st h :
  clockMonotone W ->
  exists st' h',
    forToolCalls W request tcs st h = (Ok st', h') /\
    segmentTime tool (st_timeSegments st') - segmentTime tool (st_timeSegments st)
      <= Date_now W h' - Date_now W h.
Proof.
  intros HM.
  apply (forToolCalls_inv (fun st' h' =>
    segmentTime tool (st_timeSegments st') - segmentTime tool (st_timeSegments st)
      <= Date_now W h' - Date_now W h)).
  - intros toolCall s1 h1 s2 h2 HP S.
    pose proof (ToolStep_toolTime _ _ _ _ _ _ HM S). lia.
  - lia.
Qed.

Lemma Iter_toolsTime request n st h :
  clockMonotone W ->
  Iter W request n st h ->
  segmentTime tool (st_timeSegments st) <= st_toolsTime st.
Proof.
  intros HM. induction 1 as [st h E | n st h tcs st' h' HI IH G T Hne E].
  - apply initialCall_Ok in E as (c & seg & _ & _ & _ & _ & _ & Tt & Sg & Ss & _).
    rewrite Ss, Tt. simpl. rewrite Sg. simpl. lia.
  - apply whileBody_Ok in E
      as (st1 & h1 & c & E1 & _ & _ & _ & _ & _ & _ & _ & _ & (seg & Sg & Ss & _) & Tt).
    destruct (forToolCalls_toolTime request tcs st (EvNow (Date_now W h) :: h) HM)
      as (st1' & h1' & E1' & B).
    rewrite E1 in E1'. injection E1' as <- <-.
    pose proof (HM h (EvNow (Date_now W h))).
    rewrite Ss, Tt, segmentTime_app. simpl. rewrite Sg. simpl. lia.
Qed.

Lemma initialCall_always request payload h :
  alwaysRequestsTools W ->
  exists st h',
    initialCall W request payload h = (Ok st, h') /\
    iterationCount st = 0 /\
    modelCalls h' = S (modelCalls h) /\
    exists toolCall rest,
      responseToolCalls (currentResponse st) = Some (toolCall :: rest).
Proof.
  intros HA.
  destruct (HA (EvNow (Date_now W h) :: h) payload) as (c & toolCall & rest & Hc & Ht).
  assert (exists st h', initialCall W request payload h = (Ok st, h') /\
                        currentResponse st = c) as (st & h' & E & R).
  { unfold initialCall, mbind, M_bind, now, callCreate. simpl. rewrite Hc.
    eexists _, _. split; reflexivity. }
  exists st, h'. split; [done|].
  apply initialCall_Ok in E as (c' & seg & C & R' & _ & I & _).
  apply completions_snoc in C as [_ C2].
  split; [done|]. split; [done|]. exists toolCall, rest. congruence.
Qed.

Lemma iterState_Iter request n :
  forall st h, iterState W request n = Some (st, h) -> Iter W request n st h.
Proof.
  induction n as [|n IH]; intros st h; simpl.
  - destruct (initialCall W request _ _) as [[st0|e|] h0] eqn:E; try discriminate.
    intros [= <- <-]. by constructor.
  - destruct (iterState W request n) as [[st0 h0]|]; [|discriminate].
    destruct (iterationCount st0 <? MAX_ITERATIONS) eqn:G; [|discriminate].
    destruct (responseToolCalls (currentResponse st0)) as [[|tc rest]|] eqn:T;
      try discriminate.
    destruct (whileBody W request _ _ st0 h0) as [[st1|e|] h1] eqn:E;
      try discriminate.
    intros [= <- <-]. eapply Iter_step; eauto.
Qed.

Lemma Iter_iterState request n st h :
  Iter W request n st h -> iterState W request n = Some (st, h).
Proof.
  induction 1 as [st h E | n st h tcs st' h' HI IH G T Hne E]; simpl.
  - by rewrite E.
  - rewrite IH, G, T. destruct tcs as [|toolCall rest]; [done|]. by rewrite E.
Qed.

(** [toolsTime] adds up, pass after pass, the time between the clock read
    before the [for] loop and the one after it. *)
Lemma Iter_toolPhase request n st h :
  Iter W request n st h -> st_toolsTime st = toolPhaseTotal W request n.
Proof.
  induction 1 as [st h E | n st h tcs st' h' HI IH G T Hne E].
  - by apply initialCall_Ok in E as (c & seg & _ & _ & _ & _ & _ & Tt & _).
  - apply whileBody_Ok in E
      as (st1 & h1 & c & E1 & _ & _ & _ & _ & _ & _ & _ & _ & _ & Tt).
    cbn [toolPhaseTotal]. rewrite (Iter_iterState _ _ _ _ HI), <- IH, Tt.
    unfold toolPhaseSpan. rewrite T. cbn zeta. by rewrite E1.
Qed.

(** * The claims *)

(** C1 (as amended).  With a credential and a provider all of whose responses
    request at least one tool invocation, [executeRequest] returns normally
    after exactly [MAX_ITERATIONS + 1 = 11] model calls: the initial call and
    one call in each of the 10 passes through the loop; the reported
    iteration count is 11. *)
Theorem always_tools_eleven_calls request :
  truthy_str (apiKey request) = true ->
  alwaysRequestsTools W ->
  exists response h',
    executeRequest W request [] = (Ok response, h') /\
    modelCalls h' = S (Z.to_nat MAX_ITERATIONS) /\
    iterations (timing response) = MAX_ITERATIONS + 1.
Proof.
  intros Hk HA.
  destruct (initialCall_always request (buildPayload request)
              [EvNow (Date_now W [])] HA) as (st0 & h0 & E0 & I0 & M0 & T0).
  destruct (whileLoop_always request (buildPayload request)
              (Z.to_nat MAX_ITERATIONS) HA st0 h0 T0) as (st & h & E & Mh & I).
  { rewrite I0. reflexivity. }
  eexists _, _. split.
  - unfold executeRequest. rewrite Hk. simpl.
    unfold mbind at 1, M_bind at 1, now at 1, tryCatch, tryBlock.
    unfold mbind at 1, M_bind at 1. rewrite E0.
    unfold mbind at 1, M_bind at 1. rewrite E.
    reflexivity.
  - simpl. split; [|by rewrite I].
    unfold modelCalls in *. rewrite createCalls_now, Mh, M0.
    rewrite createCalls_now. simpl. reflexivity.
Qed.

(** C2 (as amended).  In the result of a run, [modelTime] is the sum of the
    durations of the recorded segments of type [model].  [toolsTime] is the
    accumulated wall-clock time of the tool-processing phases: the sum, over
    the passes through the loop, of the clock read after the [for] loop
    minus the clock read before it; with a clock that never goes back it is
    at least the sum of the durations of the segments of type [tool]. *)
Theorem timing_sums request response h' :
  executeRequest W request [] = (Ok response, h') ->
  modelTime (timing response) =
    segmentTime model (timeSegments (timing response)) /\
  toolsTime (timing response) =
    toolPhaseTotal W request (Z.to_nat (iterations (timing response) - 1)) /\
  (clockMonotone W ->
   segmentTime tool (timeSegments (timing response)) <= toolsTime (timing response)).
Proof.
  intros E. apply executeRequest_Ok in E as (n & st & h & HI & _ & -> & _).
  simpl. split; [|split].
  - by apply Iter_facts in HI as (_ & _ & _ & _ & _ & _ & _ & Mt).
  - pose proof (Iter_facts _ _ _ _ HI) as (I & _).
    replace (Z.to_nat (iterationCount st + 1 - 1)) with n by lia.
    by apply Iter_toolPhase with h.
  - intros HM. by apply (Iter_toolsTime request n st h).
Qed.


(** C6.  Without a credential ([apiKey] absent or empty) [executeRequest]
    throws its API-key error straight away: the history is unchanged, so no
    model call, no tool call and not even a clock read has happened. *)
Theorem missing_apiKey_fails_first request h :
  truthy_str (apiKey request) = false ->
  executeRequest W request h =
    (Throw (mkError "API key is required for OpenAI"), h).
Proof. intros Hk. unfold executeRequest. by rewrite Hk. Qed.

(** C7.  A requested invocation whose tool is not in the request's tool list
    is skipped: processing it changes neither the loop variables (transcript,
    results, segments) nor the history (no execution), and raises nothing;
    a batch containing it behaves exactly as the batch without it, and runs
    to its end. *)
Theorem unresolved_tool_skipped request toolCall :
  findTool request (fn_name toolCall) = None ->
  (forall st h, processToolCall W request toolCall st h = (Ok st, h)) /\
  (forall before after st h,
      forToolCalls W request (before ++ toolCall :: after) st h =
      forToolCalls W request (before ++ after) st h /\
      exists st' h' l,
        forToolCalls W request (before ++ toolCall :: after) st h = (Ok st', h') /\
        currentMessages st' = currentMessages st ++ pairMessages W l /\
        toolResults st' = toolResults st ++ map snd l /\
        Forall (resolved request) (map fst l)).
Proof.
  intros Hf. split.
  - intros st h. by apply processToolCall_unresolved.
  - intros before after st h. split.
    + rewrite !forToolCalls_app. unfold mbind, M_bind.
      destruct (forToolCalls W request before st h) as [[st1|e|] h1]; try done.
      simpl. unfold mbind, M_bind.
      by rewrite processToolCall_unresolved.
    + destruct (forToolCalls_transcript request (before ++ toolCall :: after) st h)
        as (st' & h' & l & E & _ & R & M & T & _).
      by exists st', h', l.
Qed.

(** C8.  For a requested invocation whose arguments parse and whose tool is
    in the request's tool list, the tool is executed exactly once, with the
    object [{ ...tool.params, ...toolArgs }]: a key of the parsed arguments
    has the arguments' value, any other key has the value of the tool's
    default parameters. *)
Theorem merged_args_passed request toolCall st h toolArgs t :
  JSON_parse W (fn_arguments toolCall) = Some toolArgs ->
  findTool request (fn_name toolCall) = Some t ->
  exists st' h' r,
    processToolCall W request toolCall st h = (Ok st', h') /\
    toolExecutions h' =
      toolExecutions h ++ [(fn_name toolCall, mergeArgs t toolArgs, r)] /\
    forall k,
      mergeArgs t toolArgs !! k =
        match ownProps toolArgs !! k with
        | Some v => Some v
        | None => default ∅ (tool_params t) !! k
        end.
Proof.
  intros Hp Hf.
  destruct (processToolCall_step request toolCall st h) as (st' & h' & E & S).
  destruct S as [ [X|X] | toolArgs' t' msg Hp' Hf' h1 He
                | toolArgs' t' result Hp' Hf' h1 He h2 ]; try congruence.
  - assert (toolArgs' = toolArgs) as -> by congruence.
    assert (t' = t) as -> by congruence.
    eexists _, _, _. split; [exact E|]. split.
    + subst h1. by rewrite toolExecutions_tool, toolExecutions_now.
    + intros k. apply spread_lookup.
  - assert (toolArgs' = toolArgs) as -> by congruence.
    assert (t' = t) as -> by congruence.
    eexists _, _, _. split; [exact E|]. split.
    + subst h2 h1.
      by rewrite toolExecutions_now, toolExecutions_tool, toolExecutions_now.
    + intros k. apply spread_lookup.
Qed.

(** C9.  At every state the loop passes through, after [n] passes and so
    [N = n + 1] model calls, each token counter is the sum over those [N]
    calls of the usage the provider reported (a missing figure counting as
    0); a further pass does not decrease any counter; and the counters
    returned by a run are those sums over all the calls of the run. *)
Theorem tokens_accumulate request n st h :
  Iter W request n st h ->
  modelCalls h = S n /\
  length (completions h) = S n /\
  prompt (tokens st) = usageSum prompt_tokens (completions h) /\
  completion (tokens st) = usageSum completion_tokens (completions h) /\
  total (tokens st) = usageSum total_tokens (completions h) /\
  (forall tcs st' h',
      whileBody W request (buildPayload request) tcs st h = (Ok st', h') ->
      (prompt (tokens st) <= prompt (tokens st'))%N /\
      (completion (tokens st) <= completion (tokens st'))%N /\
      (total (tokens st) <= total (tokens st'))%N) /\
  (forall response h',
      executeRequest W request [] = (Ok response, h') ->
      prompt (res_tokens response) = usageSum prompt_tokens (completions h') /\
      completion (res_tokens response) =
        usageSum completion_tokens (completions h') /\
      total (res_tokens response) = usageSum total_tokens (completions h')).
Proof.
  intros HI.
  pose proof (Iter_facts _ _ _ _ HI) as (_ & MC & L & _ & P & C & T & _).
  do 5 (split; [done|]). split.
  - intros tcs st' h' E.
    apply whileBody_Ok in E as (st1 & _ & c & _ & F & _ & _ & Tk & _).
    destruct F as (_ & _ & F3 & _).
    destruct (addUsage_fields (tokens st1) c) as (A1 & A2 & A3).
    rewrite Tk, A1, A2, A3, F3. lia.
  - intros response h' E.
    apply executeRequest_Ok in E as (m & s & hh & HI' & _ & -> & ->).
    unfold completions. rewrite createCalls_now.
    by apply Iter_facts in HI' as (_ & _ & _ & _ & P' & C' & T' & _).
Qed.

(** C10.  The [iterations] figure of a returned timing summary is the number
    [n] of passes made through the loop plus one, which is the number of
    model calls made; it is at least 1, and it is 1 when the first response
    requests no tool invocation. *)
Theorem iterations_count_model_calls request response h' :
  executeRequest W request [] = (Ok response, h') ->
  (exists n st h,
      Iter W request n st h /\ loopExits st /\
      h' = EvNow (Date_now W h) :: h /\
      iterations (timing response) = Z.of_nat n + 1) /\
  iterations (timing response) = Z.of_nat (modelCalls h') /\
  1 <= iterations (timing response) /\
  (forall c0,
      head (completions h') = Some c0 ->
      responseToolCalls c0 = None \/ responseToolCalls c0 = Some [] ->
      iterations (timing response) = 1).
Proof.
  intros E. apply executeRequest_Ok in E as (n & st & h & HI & HX & -> & ->).
  pose proof (Iter_facts _ _ _ _ HI) as (I & MC & _).
  simpl. unfold modelCalls in *. rewrite createCalls_now, MC, I.
  split; [|split; [lia|split; [lia|]]].
  - by exists n, st, h.
  - intros c0 Hh Hn. unfold completions in Hh. rewrite createCalls_now in Hh.
    destruct (Iter_first _ _ _ _ _ HI Hh) as [[-> _]|(tc & rest & X)]; [done|].
    destruct Hn; congruence.
Qed.

End Facts.

(** ** Concrete runs *)

Import ProviderExamples.

Lemma tickClock_monotone w :
  Date_now w = tickClock -> clockMonotone w.
Proof.
  intros E h e. rewrite E. unfold tickClock. rewrite length_cons. lia.
Defined.

(** C1, counterexample: this provider always requests a tool invocation and
    the run makes 11 model calls, not at most 10. *)
Lemma always_tools_exceeds_ten :
  alwaysRequestsTools toolHungry /\
  ~ (modelCalls (snd (executeRequest toolHungry request [])) <= 10)%nat.
Proof.
  split.
  - intros h p. exists askLookup, callA, []. split; reflexivity.
  - assert (modelCalls (snd (executeRequest toolHungry request [])) = 11%nat) as ->
      by (vm_compute; reflexivity).
    lia.
Qed.

Lemma always_tools_eleven_calls_witness :
  exists response h',
    executeRequest toolHungry request [] = (Ok response, h') /\
    modelCalls h' = 11%nat /\
    iterations (timing response) = 11.
Proof.
  apply (always_tools_eleven_calls toolHungry request).
  - reflexivity.
  - intros h p. exists askLookup, callA, []. split; reflexivity.
Defined.

(** C2, counterexample: one successful tool call recorded as a segment of
    duration 2, while the reported [toolsTime] is 4. *)
Lemma toolsTime_exceeds_tool_segments :
  exists response h',
    executeRequest oneRound request [] = (Ok response, h') /\
    toolsTime (timing response) = 4 /\
    segmentTime tool (timeSegments (timing response)) = 2 /\
    toolsTime (timing response) <>
      segmentTime tool (timeSegments (timing response)).
Proof.
  eexists _, _. split; [vm_compute; reflexivity|].
  split; [vm_compute; reflexivity|].
  split; [vm_compute; reflexivity|].
  vm_compute. discriminate.
Qed.

Lemma timing_sums_witness :
  exists response h',
    executeRequest oneRound request [] = (Ok response, h') /\
    clockMonotone oneRound /\
    modelTime (timing response) =
      segmentTime model (timeSegments (timing response)) /\
    toolsTime (timing response) = toolPhaseTotal oneRound request 1 /\
    segmentTime tool (timeSegments (timing response)) <= toolsTime (timing response).
Proof.
  edestruct (timing_sums oneRound request) as (A & T & B); [vm_compute; reflexivity|].
  eexists _, _. split; [vm_compute; reflexivity|].
  split; [by apply tickClock_monotone|].
  split; [exact A|]. split; [exact T|]. apply B. by apply tickClock_monotone.
Defined.


Lemma missing_apiKey_fails_first_witness :
  truthy_str (apiKey requestWithoutKey) = false /\
  executeRequest oneRound requestWithoutKey [] =
    (Throw (mkError "API key is required for OpenAI"), []).
Proof.
  split; [reflexivity|].
  apply (missing_apiKey_fails_first oneRound requestWithoutKey []). reflexivity.
Defined.

Lemma unresolved_tool_skipped_witness :
  findTool request (fn_name callMissing) = None /\
  processToolCall oneRound request callMissing freshState [] = (Ok freshState, []) /\
  forToolCalls oneRound request [callA; callMissing; callB] freshState [] =
  forToolCalls oneRound request [callA; callB] freshState [].
Proof.
  destruct (unresolved_tool_skipped oneRound request callMissing) as [A B];
    [vm_compute; reflexivity|].
  split; [vm_compute; reflexivity|].
  split; [apply A|].
  exact (proj1 (B [callA] [callB] freshState [])).
Defined.

Lemma merged_args_passed_witness :
  exists st' h' r,
    processToolCall oneRound request callA freshState [] = (Ok st', h') /\
    toolExecutions h' =
      [("lookup", mergeArgs lookupTool (JObj {[ "limit" := JNum 1 ]}), r)] /\
    mergeArgs lookupTool (JObj {[ "limit" := JNum 1 ]}) !! "limit" = Some (JNum 1) /\
    mergeArgs lookupTool (JObj {[ "limit" := JNum 1 ]}) !! "region" = Some (JStr "eu").
Proof.
  destruct (merged_args_passed oneRound request callA freshState []
              (JObj {[ "limit" := JNum 1 ]}) lookupTool)
    as (st' & h' & r & E & T & L);
    [vm_compute; reflexivity|vm_compute; reflexivity|].
  exists st', h', r. split; [exact E|]. split; [exact T|].
  split; rewrite L; vm_compute; reflexivity.
Defined.

Lemma tokens_accumulate_witness :
  exists st h,
    iterState oneRound request 1 = Some (st, h) /\
    modelCalls h = 2%nat /\
    tokens st = {| prompt := 10; completion := 3; total := 13 |} /\
    prompt (tokens st) = usageSum prompt_tokens (completions h).
Proof.
  edestruct (tokens_accumulate oneRound request 1) as (MC & L & P & _);
    [apply iterState_Iter; vm_compute; reflexivity|].
  eexists _, _. split; [vm_compute; reflexivity|].
  split; [exact MC|]. split; [vm_compute; reflexivity|exact P].
Defined.

Lemma iterations_count_model_calls_witness :
  exists response h',
    executeRequest oneRound request [] = (Ok response, h') /\
    iterations (timing response) = 2 /\
    iterations (timing response) = Z.of_nat (modelCalls h').
Proof.
  edestruct (iterations_count_model_calls oneRound request) as (_ & A & _);
    [vm_compute; reflexivity|].
  eexists _, _. split; [vm_compute; reflexivity|].
  split; [vm_compute; reflexivity|exact A].
Defined.

(** * Further properties of the provider loop *)

Lemma ordered_nil {A} (R : A -> A -> Prop) : ordered R [].
Proof. intros i j a b _ H. by rewrite lookup_nil in H. Qed.

Lemma ordered_singleton {A} (R : A -> A -> Prop) x : ordered R [x].
Proof.
  intros i j a b Hij Hi Hj.
  apply lookup_lt_Some in Hj. simpl in Hj. lia.
Qed.

Lemma ordered_snoc {A} (R : A -> A -> Prop) l x :
  ordered R l -> Forall (fun a => R a x) l -> ordered R (l ++ [x]).
Proof.
  intros Ho Hf i j a b Hij Hi Hj.
  pose proof (lookup_lt_Some _ _ _ Hj) as Lj. rewrite length_app in Lj. simpl in Lj.
  assert (i < length l)%nat as Li by lia.
  rewrite (lookup_app_l l [x] i Li) in Hi.
  destruct (decide (j < length l)%nat) as [Hlt|Hge].
  - rewrite (lookup_app_l l [x] j Hlt) in Hj. exact (Ho i j a b Hij Hi Hj).
  - assert (length l <= j)%nat as Lge by lia.
    rewrite (lookup_app_r l [x] j Lge) in Hj.
    replace (j - length l)%nat with 0%nat in Hj by lia.
    injection Hj as <-.
    rewrite Forall_lookup in Hf. exact (Hf i a Hi).
Qed.

Section MoreFacts.

Variable W : World.

Lemma toolExecutions_create p r h :
  toolExecutions (EvCreate p r :: h) = toolExecutions h.
Proof.
  unfold toolExecutions. rewrite reverse_cons, omap_app. simpl.
  by rewrite app_nil_r.
Qed.

Lemma successOutputs_create p r h :
  successOutputs (EvCreate p r :: h) = successOutputs h.
Proof. unfold successOutputs. by rewrite toolExecutions_create. Qed.

(** What holds before the [for] loop and is kept by every tool call holds
    after it. *)
Lemma forToolCalls_Ok_inv (P : LoopState -> History -> Prop) request :
  (forall toolCall st h st' h',
      P st h -> ToolStep W request toolCall st h st' h' -> P st' h') ->
  forall tcs st h st' h',
    P st h -> forToolCalls W request tcs st h = (Ok st', h') -> P st' h'.
Proof.
  intros Hstep tcs st h st' h' HP E.
  destruct (forToolCalls_inv W P request Hstep tcs st h HP) as (s & hh & E' & HP').
  congruence.
Qed.

Lemma initialCall_unfold request payload h :
  let initialCallTime := Date_now W h in
  let h1 := EvNow initialCallTime :: h in
  let r := create W h1 payload in
  let h2 := EvCreate payload r :: h1 in
  let t := Date_now W h2 in
  match r with
  | inl msg => initialCall W request payload h = (Throw (mkError msg), h2)
  | inr response =>
      exists st,
        initialCall W request payload h = (Ok st, EvNow t :: h2) /\
        currentResponse st = response /\
        st_content st = default "" (responseContent response) /\
        toolCalls st = [] /\ toolResults st = [] /\
        currentMessages st = allMessages request /\
        iterationCount st = 0 /\
        st_modelTime st = t - initialCallTime /\
        st_toolsTime st = 0 /\
        st_firstResponseTime st = t - initialCallTime /\
        st_timeSegments st =
          [ {| seg_type := model; seg_name := "Initial response";
               seg_startTime := initialCallTime;
               seg_endTime := initialCallTime + (t - initialCallTime);
               seg_duration := t - initialCallTime |} ]
  end.
Proof.
  intros. unfold initialCall, mbind, M_bind, now, callCreate. simpl.
  fold initialCallTime. fold h1. fold r. destruct r as [msg|response] eqn:Hr.
  - reflexivity.
  - eexists. split; [reflexivity|]. simpl. repeat split.
Qed.

(** A throw from the loop comes from a rejected model call, the last event. *)
Lemma whileLoop_Throw request payload fuel :
  forall st h e h',
    whileLoop W fuel request payload st h = (Throw e, h') ->
    exists msg p h0, h' = EvCreate p (inl msg) :: h0 /\ e = mkError msg.
Proof.
  induction fuel as [|fuel IH]; intros st h e h' E; simpl in E.
  - destruct (iterationCount st <? MAX_ITERATIONS); [|discriminate].
    destruct (responseToolCalls (currentResponse st)) as [[|tc rest]|]; discriminate.
  - destruct (iterationCount st <? MAX_ITERATIONS); [|discriminate].
    destruct (responseToolCalls (currentResponse st)) as [[|tc rest]|]; try discriminate.
    destruct (whileBody_unfold W request payload (tc :: rest) st h)
      as (st1 & h1 & E1 & E2).
    simpl in E2. unfold mbind, M_bind in E. rewrite E2 in E.
    destruct (create W _ _) as [msg|response].
    + injection E as <- <-. by eexists _, _, _.
    + by apply IH in E.
Qed.

Lemma whileLoop_total request payload fuel :
  neverRejects W ->
  forall st h,
    MAX_ITERATIONS <= iterationCount st + Z.of_nat fuel ->
    exists st' h', whileLoop W fuel request payload st h = (Ok st', h').
Proof.
  intros HN. induction fuel as [|fuel IH]; intros st h Hf; simpl.
  - destruct (iterationCount st <? MAX_ITERATIONS) eqn:G; [|by eexists _, _].
    apply Z.ltb_lt in G. lia.
  - destruct (iterationCount st <? MAX_ITERATIONS) eqn:G; [|by eexists _, _].
    destruct (responseToolCalls (currentResponse st)) as [[|tc rest]|];
      try by eexists _, _.
    destruct (whileBody_unfold W request payload (tc :: rest) st h)
      as (st1 & h1 & E1 & E2).
    simpl in E2. unfold mbind, M_bind. rewrite E2.
    match goal with |- context [create W ?hh ?pp] =>
      destruct (HN hh pp) as (c & Hc) end.
    rewrite Hc. apply IH. simpl.
    destruct (forToolCalls_frame W request (tc :: rest) st (EvNow (Date_now W h) :: h))
      as (st1' & h1' & E1' & F & _).
    rewrite E1 in E1'. injection E1' as <- <-.
    destruct F as (_ & _ & _ & F4 & _). lia.
Qed.

Lemma whileLoop_calls_bound request payload fuel :
  forall st h,
    iterationCount st <= MAX_ITERATIONS ->
    Z.of_nat (modelCalls (snd (whileLoop W fuel request payload st h)))
      <= Z.of_nat (modelCalls h) + (MAX_ITERATIONS - iterationCount st).
Proof.
  induction fuel as [|fuel IH]; intros st h Hi; simpl.
  - destruct (iterationCount st <? MAX_ITERATIONS); [|simpl; lia].
    destruct (responseToolCalls (currentResponse st)) as [[|tc rest]|]; simpl; lia.
  - destruct (iterationCount st <? MAX_ITERATIONS) eqn:G; [|simpl; lia].
    apply Z.ltb_lt in G.
    destruct (responseToolCalls (currentResponse st)) as [[|tc rest]|];
      try (simpl; lia).
    destruct (whileBody_unfold W request payload (tc :: rest) st h)
      as (st1 & h1 & E1 & E2).
    destruct (forToolCalls_frame W request (tc :: rest) st (EvNow (Date_now W h) :: h))
      as (st1' & h1' & E1' & F & C).
    rewrite E1 in E1'. injection E1' as <- <-.
    destruct F as (_ & _ & _ & F4 & _).
    rewrite createCalls_now in C.
    simpl in E2. unfold mbind, M_bind. rewrite E2.
    destruct (create W _ _) as [msg|response]; simpl.
    + unfold modelCalls. rewrite createCalls_create, !createCalls_now, C, length_app.
      simpl. lia.
    + etrans; [apply IH; simpl; lia|].
      unfold modelCalls. simpl.
      rewrite createCalls_now, createCalls_create, !createCalls_now, C, length_app.
      simpl. lia.
Qed.


(** ** Further properties of [executeRequest] *)

(** X1.  When the first response requests no tool invocation, the run makes
    exactly one model call, with the initial payload, executes no tool, and
    returns that response's text (or the empty string), its usage figures,
    no tool calls or results, [iterations = 1] and [toolsTime = 0]. *)
Theorem single_call_without_tools request c :
  truthy_str (apiKey request) = true ->
  create W [EvNow (Date_now W [EvNow (Date_now W [])]); EvNow (Date_now W [])]
         (buildPayload request) = inr c ->
  responseToolCalls c = None \/ responseToolCalls c = Some [] ->
  exists response h',
    executeRequest W request [] = (Ok response, h') /\
    createCalls h' = [(buildPayload request, inr c)] /\
    toolExecutions h' = [] /\
    res_content response = default "" (responseContent c) /\
    res_tokens response =
      {| prompt := usageOr0 prompt_tokens c;
         completion := usageOr0 completion_tokens c;
         total := usageOr0 total_tokens c |} /\
    res_toolCalls response = None /\
    res_toolResults response = None /\
    iterations (timing response) = 1 /\
    toolsTime (timing response) = 0.
Proof.
  intros Hk Hc Ht.
  unfold executeRequest. rewrite Hk. simpl.
  unfold mbind at 1, M_bind at 1, now at 1, tryCatch, tryBlock.
  unfold mbind at 1, M_bind at 1.
  unfold initialCall, mbind, M_bind, now, callCreate. simpl. rewrite Hc. simpl.
  assert (responseToolCalls c = None \/ responseToolCalls c = Some []) as [-> | ->]
    by done; eexists _, _; (split; [reflexivity|]); simpl; repeat split.
Qed.

(** X2.  With a credential, a run that throws has just had a model call
    rejected: that rejection is the last event before the final clock read
    (nothing is retried or called after it), the error has the rejection's
    message, and it carries the timing of the run up to the failure. *)
Theorem provider_error_carries_timing request e h' :
  truthy_str (apiKey request) = true ->
  executeRequest W request [] = (Throw e, h') ->
  exists msg p h,
    h' = EvNow (Date_now W (EvCreate p (inl msg) :: h)) :: EvCreate p (inl msg) :: h /\
    message e = msg /\
    err_timing e = Some
      {| err_startTime := toISOString W (Date_now W []);
         err_endTime := toISOString W (Date_now W (EvCreate p (inl msg) :: h));
         err_duration := Date_now W (EvCreate p (inl msg) :: h) - Date_now W [] |}.
Proof.
  intros Hk. unfold executeRequest. rewrite Hk. simpl.
  unfold mbind at 1, M_bind at 1, now at 1, tryCatch.
  destruct (tryBlock W request _ _ _) as [[r|e0|] h1] eqn:Et; try discriminate.
  unfold catchBlock, mbind, M_bind, now, throw. intros [= <- <-].
  assert (exists msg p h0, h1 = EvCreate p (inl msg) :: h0 /\ e0 = mkError msg)
    as (msg & p & h0 & -> & ->).
  { unfold tryBlock in Et. unfold mbind at 1, M_bind at 1 in Et.
    pose proof (initialCall_unfold request (buildPayload request)
                  [EvNow (Date_now W [])]) as X. simpl in X.
    destruct (create W _ _) as [msg|c].
    - rewrite X in Et. injection Et as <- <-. by eexists _, _, _.
    - destruct X as (st0 & X & _). rewrite X in Et.
      unfold mbind at 1, M_bind at 1 in Et.
      destruct (whileLoop W _ request _ st0 _) as [[st|e1|] hl] eqn:El.
      + unfold mbind, M_bind, now in Et. discriminate.
      + injection Et as <- <-. by apply whileLoop_Throw in El.
      + discriminate. }
  by exists msg, p, h0.
Qed.

(** X3.  Tools cannot fail a run: with a credential and a provider that
    answers every call, the run returns, whatever the tools and the argument
    parser do. *)
Theorem returns_when_provider_answers request :
  truthy_str (apiKey request) = true ->
  neverRejects W ->
  exists response h', executeRequest W request [] = (Ok response, h').
Proof.
  intros Hk HN. unfold executeRequest. rewrite Hk. simpl.
  unfold mbind at 1, M_bind at 1, now at 1, tryCatch, tryBlock.
  unfold mbind at 1, M_bind at 1.
  pose proof (initialCall_unfold request (buildPayload request)
                [EvNow (Date_now W [])]) as X. simpl in X.
  match type of X with context [create W ?hh ?pp] =>
    destruct (HN hh pp) as (c & Hc) end.
  rewrite Hc in X. destruct X as (st0 & X & _ & _ & _ & _ & _ & I & _).
  rewrite X.
  unfold mbind at 1, M_bind at 1.
  destruct (whileLoop_total request (buildPayload request)
              (Z.to_nat MAX_ITERATIONS) HN st0
              (EvNow (Date_now W (EvCreate (buildPayload request) (inr c) ::
                 [EvNow (Date_now W [EvNow (Date_now W [])]); EvNow (Date_now W [])])) ::
               EvCreate (buildPayload request) (inr c) ::
                 [EvNow (Date_now W [EvNow (Date_now W [])]); EvNow (Date_now W [])]))
    as (st & h & ->).
  { rewrite I. done. }
  by eexists _, _.
Qed.

(** X4.  Whatever the provider and the tools do, and however the run ends,
    it makes at most [MAX_ITERATIONS + 1 = 11] model calls. *)
Theorem at_most_eleven_model_calls request :
  (modelCalls (snd (executeRequest W request [])) <= S (Z.to_nat MAX_ITERATIONS))%nat.
Proof.
  unfold executeRequest.
  destruct (truthy_str (apiKey request)); simpl; [|unfold modelCalls; simpl; lia].
  unfold mbind at 1, M_bind at 1, now at 1, tryCatch, tryBlock.
  unfold mbind at 1, M_bind at 1.
  pose proof (initialCall_unfold request (buildPayload request)
                [EvNow (Date_now W [])]) as X. simpl in X.
  destruct (create W _ _) as [msg|c].
  - rewrite X. unfold catchBlock, mbind, M_bind, now, throw. simpl.
    unfold modelCalls. rewrite createCalls_now, createCalls_create. simpl. lia.
  - destruct X as (st0 & X & _ & _ & _ & _ & _ & I & _). rewrite X.
    unfold mbind at 1, M_bind at 1.
    match goal with |- context [whileLoop W ?f ?r ?p ?s ?hh] =>
      pose proof (whileLoop_calls_bound r p f s hh) as B;
      destruct (whileLoop W f r p s hh) as [[st|e1|] hl] end.
    + unfold mbind, M_bind, now. simpl. simpl in B.
      unfold modelCalls in *.
      rewrite createCalls_now.
      rewrite createCalls_now, createCalls_create, !createCalls_now in B.
      simpl in B. rewrite I in B. unfold MAX_ITERATIONS in *. lia.
    + unfold catchBlock, mbind, M_bind, now, throw. simpl. simpl in B.
      unfold modelCalls in *.
      rewrite createCalls_now.
      rewrite createCalls_now, createCalls_create, !createCalls_now in B.
      simpl in B. rewrite I in B. unfold MAX_ITERATIONS in *. lia.
    + simpl. simpl in B. unfold modelCalls in *.
      rewrite createCalls_now, createCalls_create, !createCalls_now in B.
      simpl in B. rewrite I in B. unfold MAX_ITERATIONS in *. lia.
Qed.


(** Induction over the states of the loop, with a relation [Q] carried
    through the tool calls of one pass. *)
Lemma Iter_inv (P : LoopState -> History -> Prop)
    (Q : LoopState -> History -> LoopState -> History -> Prop) request :
  (forall st h,
      initialCall W request (buildPayload request) [EvNow (Date_now W [])] = (Ok st, h) ->
      P st h) ->
  (forall st h, P st h -> Q st h st (EvNow (Date_now W h) :: h)) ->
  (forall st0 h0 toolCall st h st' h',
      Q st0 h0 st h -> ToolStep W request toolCall st h st' h' -> Q st0 h0 st' h') ->
  (forall st0 h0 st1 h1 response,
      P st0 h0 -> Q st0 h0 st1 h1 -> sameLoopVars st0 st1 ->
      let toolsStartTime := Date_now W h0 in
      let t := Date_now W h1 in
      let h2 := EvNow t :: h1 in
      let nextModelStartTime := Date_now W h2 in
      let h3 := EvNow nextModelStartTime :: h2 in
      let nextPayload := withMessages (buildPayload request) (currentMessages st1) in
      let h4 := EvCreate nextPayload (inr response) :: h3 in
      let nextModelEndTime := Date_now W h4 in
      P (recordModelCall response (t - toolsStartTime)
           nextModelStartTime nextModelEndTime st1)
        (EvNow nextModelEndTime :: h4)) ->
  forall n st h, Iter W request n st h -> P st h.
Proof.
  intros Hinit Hest Hstep Hmodel n st h HI.
  induction HI as [st h E | n st h tcs st' h' HI IH G T Hne E]; [by apply Hinit|].
  destruct (whileBody_unfold W request (buildPayload request) tcs st h)
    as (st1 & h1 & E1 & E2).
  destruct (forToolCalls_frame W request tcs st (EvNow (Date_now W h) :: h))
    as (st1' & h1' & E1' & F & _).
  rewrite E1 in E1'. injection E1' as <- <-.
  pose proof (forToolCalls_Ok_inv (Q st h) request (Hstep st h) tcs _ _ _ _
                (Hest _ _ IH) E1) as HQ.
  simpl in E2. rewrite E2 in E.
  destruct (create W _ _) as [msg|response] eqn:Hc; [discriminate|].
  injection E as <- <-.
  exact (Hmodel st h st1 h1 response IH HQ F).
Qed.


Lemma withMessages_all request msgs :
  withMessages (withMessages (buildPayload request) msgs) (allMessages request) =
  buildPayload request.
Proof. reflexivity. Qed.

Lemma payloadMessages_snoc h h' p r :
  createCalls h' = createCalls h ++ [(p, r)] ->
  payloadMessages h' = payloadMessages h ++ [p_messages p].
Proof. intros E. unfold payloadMessages. by rewrite E, map_app. Qed.

Lemma Iter_transcript request n st h :
  Iter W request n st h -> transcriptInv request st h.
Proof.
  apply (Iter_inv (transcriptInv request)
           (fun st0 h0 st h =>
              createCalls h = createCalls h0 /\
              currentMessages st0 `prefix_of` currentMessages st)).
  - intros s hh E.
    pose proof (initialCall_unfold request (buildPayload request)
                  [EvNow (Date_now W [])]) as X. simpl in X.
    destruct (create W _ _) as [msg|c]; [congruence|].
    destruct X as (s' & X & _ & _ & _ & _ & M & _).
    rewrite X in E. injection E as <- <-.
    unfold transcriptInv, payloadMessages.
    rewrite createCalls_now, createCalls_create, !createCalls_now. simpl.
    rewrite M. repeat split.
    + apply ordered_singleton.
    + by constructor.
    + by constructor.
  - intros s hh _. by rewrite createCalls_now.
  - intros st0 h0 tc s hh s' hh' [C P] S.
    destruct (ToolStep_frame W _ _ _ _ _ _ S) as [_ C'].
    apply ToolStep_transcript in S as (l & _ & _ & M & _).
    split; [congruence|]. rewrite M. by apply prefix_app_r.
  - intros st0 h0 st1 h1 c (O & F & Hd & Fp) [C P] _. simpl.
    assert (createCalls
              (EvNow (Date_now W
                 (EvCreate (withMessages (buildPayload request) (currentMessages st1)) (inr c)
                    :: EvNow (Date_now W (EvNow (Date_now W h1) :: h1))
                    :: EvNow (Date_now W h1) :: h1))
               :: EvCreate (withMessages (buildPayload request) (currentMessages st1)) (inr c)
               :: EvNow (Date_now W (EvNow (Date_now W h1) :: h1))
               :: EvNow (Date_now W h1) :: h1)
            = createCalls h0 ++
              [(withMessages (buildPayload request) (currentMessages st1), inr c)]) as CC.
    { by rewrite createCalls_now, createCalls_create, !createCalls_now, C. }
    unfold transcriptInv. rewrite (payloadMessages_snoc _ _ _ _ CC), CC. simpl.
    assert (Forall (fun m => m `prefix_of` currentMessages st1) (payloadMessages h0)) as F1.
    { eapply Forall_impl; [exact F|]. intros m Hm. etrans; [exact Hm|exact P]. }
    repeat split.
    + by apply ordered_snoc.
    + apply Forall_app. split; [done|]. by constructor.
    + destruct (payloadMessages h0); [discriminate|done].
    + apply Forall_app. split; [done|]. constructor; [|done]. reflexivity.
Qed.

(** *** The final text *)

Lemma Iter_content request n st h :
  Iter W request n st h -> st_content st = lastText (completions h).
Proof.
  apply (Iter_inv (fun st h => st_content st = lastText (completions h))
                  (fun _ _ st h => st_content st = lastText (completions h))).
  - intros s hh E.
    pose proof (initialCall_unfold request (buildPayload request)
                  [EvNow (Date_now W [])]) as X. simpl in X.
    destruct (create W _ _) as [msg|c]; [congruence|].
    destruct X as (s' & X & _ & Ct & _).
    rewrite X in E. injection E as <- <-.
    unfold completions. rewrite createCalls_now, createCalls_create, !createCalls_now.
    simpl. rewrite Ct. unfold lastText. simpl.
    unfold truthy_str. destruct (responseContent c) as [t|]; [|done]. simpl.
    case_bool_decide; simpl; congruence.
  - intros s hh P. unfold completions in *. by rewrite createCalls_now.
  - intros _ _ tc s hh s' hh' P S.
    destruct (ToolStep_frame W _ _ _ _ _ _ S) as [(_ & Ct & _) C].
    unfold completions in *. by rewrite Ct, C.
  - intros st0 h0 st1 h1 c _ Q _. simpl.
    unfold completions in *.
    rewrite createCalls_now, createCalls_create, !createCalls_now, omap_app.
    simpl. unfold lastText in *. rewrite foldl_app. simpl. by rewrite Q.
Qed.

(** *** Results and logs *)

Lemma countType_app k a b : countType k (a ++ b) = (countType k a + countType k b)%nat.
Proof. unfold countType. by rewrite filter_app, length_app. Qed.

Lemma countType_snoc_same k l s :
  seg_type s = k -> countType k (l ++ [s]) = S (countType k l).
Proof.
  intros E. rewrite countType_app. unfold countType at 2.
  rewrite filter_cons, decide_True by done. simpl. lia.
Qed.

Lemma countType_snoc_other k l s :
  seg_type s <> k -> countType k (l ++ [s]) = countType k l.
Proof.
  intros E. rewrite countType_app. unfold countType at 2.
  rewrite filter_cons, decide_False by done. simpl. lia.
Qed.

Lemma resultsInv_now st h t : resultsInv st h -> resultsInv st (EvNow t :: h).
Proof. unfold resultsInv. by rewrite successOutputs_now. Qed.

Lemma Iter_results request n st h :
  Iter W request n st h -> resultsInv st h.
Proof.
  apply (Iter_inv resultsInv (fun _ _ st h => resultsInv st h)).
  - intros s hh E.
    pose proof (initialCall_unfold request (buildPayload request)
                  [EvNow (Date_now W [])]) as X. simpl in X.
    destruct (create W _ _) as [msg|c]; [congruence|].
    destruct X as (s' & X & _ & _ & Tc & Tr & _ & I & _ & _ & Fr & Sg).
    rewrite X in E. injection E as <- <-.
    unfold resultsInv.
    rewrite successOutputs_now, successOutputs_create, !successOutputs_now.
    rewrite Tc, Tr, Sg, I, Fr. simpl. repeat split.
    + constructor; [|done]. unfold wellFormedSegment. simpl. lia.
    + eexists. by repeat split.
  - intros s hh P. by apply resultsInv_now.
  - intros _ _ tc s hh s' hh' P S.
    destruct P as (R & L & Ct & Cm & Wf & s0 & Hd & Hs).
    destruct S as [ | toolArgs t msg Hp Hf h1 He | toolArgs t result Hp Hf h1 He h2 ].
    + by repeat split; [..|exists s0].
    + subst h1. unfold resultsInv.
      rewrite successOutputs_tool, successOutputs_now, app_nil_r.
      by repeat split; [..|exists s0].
    + subst h2 h1. unfold resultsInv.
      rewrite successOutputs_now, successOutputs_tool, successOutputs_now.
      destruct (success result); [|rewrite app_nil_r; by repeat split; [..|exists s0]].
      simpl.
      rewrite !map_app, Forall_app, !length_app, R, L.
      rewrite (countType_snoc_same tool) by done.
      rewrite (countType_snoc_other model) by done.
      rewrite Ct. simpl.
      repeat split; try done; try lia.
      * constructor; [|done]. unfold wellFormedSegment. simpl. lia.
      * exists s0. split; [|done]. destruct (st_timeSegments s); [done|]. done.
  - intros st0 h0 st1 h1 c _ (R & L & Ct & Cm & Wf & s0 & Hd & Hs) _. simpl.
    unfold resultsInv. simpl.
    rewrite successOutputs_now, successOutputs_create, !successOutputs_now.
    rewrite Forall_app.
    rewrite (countType_snoc_same model) by done.
    rewrite (countType_snoc_other tool) by done.
    repeat split; try done; try lia.
    + constructor; [|done]. unfold wellFormedSegment. simpl. lia.
    + exists s0. split; [|done]. destruct (st_timeSegments st1); [done|]. done.
Qed.


(** *** Time accounting *)

Lemma ToolStep_clock request toolCall st h st' h' :
  clockMonotone W ->
  ToolStep W request toolCall st h st' h' ->
  Date_now W h <= Date_now W h'.
Proof.
  intros HM [ | toolArgs t msg Hp Hf h1 He | toolArgs t result Hp Hf h1 He h2 ].
  - lia.
  - subst h1. apply (clock_mono_app W HM [_; _]).
  - subst h2 h1. apply (clock_mono_app W HM [_; _; _]).
Qed.

Lemma clock_chain h1 p r :
  clockMonotone W ->
  let t := Date_now W h1 in
  let h2 := EvNow t :: h1 in
  let s := Date_now W h2 in
  let h3 := EvNow s :: h2 in
  let h4 := EvCreate p r :: h3 in
  let e := Date_now W h4 in
  t <= s /\ s <= e /\ e <= Date_now W (EvNow e :: h4).
Proof.
  intros HM t h2 s h3 h4 e.
  pose proof (HM h1 (EvNow t)). pose proof (HM h2 (EvNow s)).
  pose proof (HM h3 (EvCreate p r)). pose proof (HM h4 (EvNow e)).
  subst e h4 s h3 h2 t. lia.
Qed.

Lemma clock_chain_init p r :
  clockMonotone W ->
  let T0 := Date_now W [] in
  let h0 := [EvNow T0] in
  let t0 := Date_now W h0 in
  let h1 := EvNow t0 :: h0 in
  let h2 := EvCreate p r :: h1 in
  let t1 := Date_now W h2 in
  T0 <= t0 /\ t0 <= t1 /\ t1 <= Date_now W (EvNow t1 :: h2).
Proof.
  intros HM T0 h0 t0 h1 h2 t1.
  pose proof (HM [] (EvNow T0)). pose proof (HM h0 (EvNow t0)).
  pose proof (HM h1 (EvCreate p r)). pose proof (HM h2 (EvNow t1)).
  subst t1 h2 h1 t0 h0 T0. lia.
Qed.

Lemma Iter_time request n st h :
  clockMonotone W -> Iter W request n st h -> timeInv W st h.
Proof.
  intros HM.
  apply (Iter_inv (timeInv W) (fun _ h0 _ h => Date_now W h0 <= Date_now W h)).
  - intros s hh E.
    pose proof (initialCall_unfold request (buildPayload request)
                  [EvNow (Date_now W [])]) as X. simpl in X.
    destruct (create W _ _) as [msg|c] eqn:Hc; [congruence|].
    destruct X as (s' & X & _ & _ & _ & _ & _ & _ & Mt & Tt & _).
    rewrite X in E. injection E as <- <-.
    unfold timeInv. rewrite Mt, Tt.
    destruct (clock_chain_init (buildPayload request) (inr c) HM) as (A1 & A2 & A3).
    lia.
  - intros s hh _. apply HM.
  - intros _ h0 tc s hh s' hh' Q S.
    pose proof (ToolStep_clock _ _ _ _ _ _ HM S). lia.
  - intros st0 h0 st1 h1 c (P1 & P2 & P3) Q (_ & _ & _ & _ & F5 & F6 & _). simpl.
    unfold timeInv. simpl. rewrite F5, F6.
    destruct (clock_chain h1
      (withMessages (buildPayload request) (currentMessages st1)) (inr c) HM)
      as (A1 & A2 & A3).
    lia.
Qed.

(** *** Segments in chronological order *)

Lemma chronoInv_later st h h' :
  Date_now W h <= Date_now W h' -> chronoInv W st h -> chronoInv W st h'.
Proof.
  intros L (O & F1 & F2). repeat split; try done.
  eapply Forall_impl; [exact F2|]. intros s Hs. simpl in Hs. lia.
Qed.

Lemma chronoInv_push st h h' s :
  chronoInv W st h ->
  seg_startTime s = Date_now W h ->
  seg_startTime s <= seg_endTime s ->
  seg_endTime s <= Date_now W h' ->
  Date_now W h <= Date_now W h' ->
  ordered (fun a b => seg_endTime a <= seg_startTime b) (st_timeSegments st ++ [s]) /\
  Forall (fun s => seg_startTime s <= seg_endTime s) (st_timeSegments st ++ [s]) /\
  Forall (fun s => seg_endTime s <= Date_now W h') (st_timeSegments st ++ [s]).
Proof.
  intros (O & F1 & F2) Hs Hse He Hh. repeat split.
  - apply ordered_snoc; [done|].
    eapply Forall_impl; [exact F2|]. intros x Hx. simpl in Hx. lia.
  - apply Forall_app. split; [done|]. by constructor.
  - apply Forall_app. split.
    + eapply Forall_impl; [exact F2|]. intros x Hx. simpl in Hx. lia.
    + by constructor.
Qed.

Lemma Iter_chrono request n st h :
  clockMonotone W -> Iter W request n st h -> chronoInv W st h.
Proof.
  intros HM.
  apply (Iter_inv (chronoInv W) (fun _ _ st h => chronoInv W st h)).
  - intros s hh E.
    pose proof (initialCall_unfold request (buildPayload request)
                  [EvNow (Date_now W [])]) as X. simpl in X.
    destruct (create W _ _) as [msg|c] eqn:Hc; [congruence|].
    destruct X as (s' & X & _ & _ & _ & _ & _ & _ & _ & _ & _ & Sg).
    rewrite X in E. injection E as <- <-.
    unfold chronoInv. rewrite Sg.
    destruct (clock_chain_init (buildPayload request) (inr c) HM) as (A1 & A2 & A3).
    repeat split.
    + apply ordered_singleton.
    + constructor; [simpl; lia|done].
    + constructor; [simpl; lia|done].
  - intros s hh P. eapply chronoInv_later; [|exact P]. apply HM.
  - intros _ _ tc s hh s' hh' P S.
    pose proof (ToolStep_clock _ _ _ _ _ _ HM S) as L.
    destruct S as [ | toolArgs t msg Hp Hf h1 He | toolArgs t result Hp Hf h1 He h2 ].
    + done.
    + by eapply chronoInv_later.
    + destruct (success result); [|by eapply chronoInv_later].
      pose proof (clock_mono_app W HM
        [EvTool (fn_name tc) (mergeArgs t toolArgs) (inr result);
         EvNow (Date_now W hh)] hh) as A1.
      change (_ ++ hh) with h2 in A1.
      pose proof (HM h2 (EvNow (Date_now W h2))) as A2.
      unfold chronoInv. simpl.
      eapply (chronoInv_push s hh);
        [exact P|reflexivity|simpl; lia|simpl; lia|lia].
  - intros st0 h0 st1 h1 c _ P _. simpl.
    destruct (clock_chain h1
      (withMessages (buildPayload request) (currentMessages st1)) (inr c) HM)
      as (A1 & A2 & A3).
    unfold chronoInv. simpl.
    eapply (chronoInv_push st1 (EvNow (Date_now W h1) :: h1)).
    + eapply chronoInv_later; [|exact P]. done.
    + reflexivity.
    + simpl. lia.
    + simpl. lia.
    + lia.
Qed.


(** X5.  The transcript only grows: the first model call of a run carries
    the initial transcript, the transcript of every later call extends that
    of every earlier call, and nothing but the transcript differs between
    the payloads of the calls. *)
Theorem transcript_append_only request response h' :
  executeRequest W request [] = (Ok response, h') ->
  head (payloadMessages h') = Some (allMessages request) /\
  ordered prefix (payloadMessages h') /\
  Forall (fun pr => withMessages (fst pr) (allMessages request) = buildPayload request)
         (createCalls h').
Proof.
  intros E. apply executeRequest_Ok in E as (n & st & h & HI & _ & _ & ->).
  apply Iter_transcript in HI as (O & _ & Hd & F).
  unfold payloadMessages in *. by rewrite createCalls_now.
Qed.

(** X6.  The [toolResults] of a returned response are the outputs of the
    tool executions that succeeded, in order ([undefined] when there is
    none), and the [toolCalls] log has one entry for each, with that output
    as its [result]. *)
Theorem results_are_successful_outputs request response h' :
  executeRequest W request [] = (Ok response, h') ->
  res_toolResults response = nonEmpty (successOutputs h') /\
  map log_result <$> res_toolCalls response = nonEmpty (successOutputs h').
Proof.
  intros E. apply executeRequest_Ok in E as (n & st & h & HI & _ & -> & ->).
  apply Iter_results in HI as (R & L & _).
  rewrite successOutputs_now. simpl. rewrite R, <- L. split; [done|].
  by destruct (toolCalls st).
Qed.

(** X7.  The text returned is that of the latest response that carried
    text; a later response without text does not erase it. *)
Theorem content_is_last_text request response h' :
  executeRequest W request [] = (Ok response, h') ->
  res_content response = lastText (completions h').
Proof.
  intros E. apply executeRequest_Ok in E as (n & st & h & HI & _ & -> & ->).
  apply Iter_content in HI. unfold completions in *.
  by rewrite createCalls_now.
Qed.

(** X8.  With a clock that never goes back, the reported [modelTime] and
    [toolsTime] are not negative and together do not exceed the reported
    total [duration]. *)
Theorem time_accounting request response h' :
  clockMonotone W ->
  executeRequest W request [] = (Ok response, h') ->
  0 <= modelTime (timing response) /\
  0 <= toolsTime (timing response) /\
  modelTime (timing response) + toolsTime (timing response)
    <= duration (timing response).
Proof.
  intros HM E. apply executeRequest_Ok in E as (n & st & h & HI & _ & -> & ->).
  by apply (Iter_time request n st h HM) in HI.
Qed.

(** X9.  In a returned timing summary every segment has
    [duration = endTime - startTime]; there is one [model] segment for each
    model call and one [tool] segment for each successful tool execution;
    and the first segment is the model segment "Initial response", whose
    duration is [firstResponseTime]. *)
Theorem segments_account_for_calls request response h' :
  executeRequest W request [] = (Ok response, h') ->
  Forall wellFormedSegment (timeSegments (timing response)) /\
  countType model (timeSegments (timing response)) = modelCalls h' /\
  countType tool (timeSegments (timing response)) = length (successOutputs h') /\
  exists s0,
    head (timeSegments (timing response)) = Some s0 /\
    seg_type s0 = model /\ seg_name s0 = "Initial response" /\
    seg_duration s0 = firstResponseTime (timing response).
Proof.
  intros E. apply executeRequest_Ok in E as (n & st & h & HI & _ & -> & ->).
  pose proof (Iter_facts W _ _ _ _ HI) as (I & MC & _).
  apply Iter_results in HI as (_ & _ & Ct & Cm & Wf & Hs).
  rewrite successOutputs_now. unfold modelCalls in *. rewrite createCalls_now.
  simpl. repeat split; try done. lia.
Qed.

(** X10.  With a clock that never goes back, the segments of a returned
    timing summary are in chronological order: each starts no later than it
    ends, and ends no later than every later segment starts. *)
Theorem segments_chronological request response h' :
  clockMonotone W ->
  executeRequest W request [] = (Ok response, h') ->
  Forall (fun s => seg_startTime s <= seg_endTime s) (timeSegments (timing response)) /\
  ordered (fun a b => seg_endTime a <= seg_startTime b)
          (timeSegments (timing response)).
Proof.
  intros HM E. apply executeRequest_Ok in E as (n & st & h & HI & _ & -> & _).
  by apply (Iter_chrono request n st h HM) in HI as (O & F & _).
Qed.

End MoreFacts.

(** ** Concrete runs for the further properties *)

Lemma single_call_without_tools_witness :
  exists response h',
    executeRequest answersAtOnce request [] = (Ok response, h') /\
    modelCalls h' = 1%nat /\
    res_content response = "done" /\
    iterations (timing response) = 1.
Proof.
  destruct (single_call_without_tools answersAtOnce request sayDone)
    as (response & h' & E & C & _ & Ct & _ & _ & _ & I & _).
  - reflexivity.
  - reflexivity.
  - left. reflexivity.
  - exists response, h'. split; [exact E|].
    unfold modelCalls. rewrite C. by repeat split.
Defined.

Lemma provider_error_carries_timing_witness :
  exists e h',
    executeRequest failsSecondCall request [] = (Throw e, h') /\
    message e = "503 upstream" /\
    modelCalls h' = 2%nat /\
    err_duration <$> err_timing e = Some 11.
Proof.
  edestruct (provider_error_carries_timing failsSecondCall request)
    as (msg & p & h & Hh & Hm & Ht);
    [reflexivity|vm_compute; reflexivity|].
  eexists _, _. split; [vm_compute; reflexivity|].
  split; [vm_compute; reflexivity|].
  split; vm_compute; reflexivity.
Defined.

Lemma returns_when_provider_answers_witness :
  neverRejects failingTool /\
  exists response h', executeRequest failingTool request [] = (Ok response, h').
Proof.
  assert (neverRejects failingTool) as HN.
  { intros h p. simpl. destruct (bool_decide _); by eexists. }
  split; [exact HN|].
  apply (returns_when_provider_answers failingTool request); [reflexivity|exact HN].
Defined.

Lemma transcript_append_only_witness :
  exists response h',
    executeRequest oneRound request [] = (Ok response, h') /\
    length (payloadMessages h') = 2%nat /\
    ordered prefix (payloadMessages h').
Proof.
  edestruct (transcript_append_only oneRound request) as (_ & O & _);
    [vm_compute; reflexivity|].
  eexists _, _. split; [vm_compute; reflexivity|].
  split; [vm_compute; reflexivity|exact O].
Defined.

Lemma results_are_successful_outputs_witness :
  exists response h',
    executeRequest oneRound request [] = (Ok response, h') /\
    res_toolResults response = Some [JStr "ok"] /\
    res_toolResults response = nonEmpty (successOutputs h').
Proof.
  edestruct (results_are_successful_outputs oneRound request) as (R & _);
    [vm_compute; reflexivity|].
  eexists _, _. split; [vm_compute; reflexivity|].
  split; [vm_compute; reflexivity|exact R].
Defined.

Lemma content_is_last_text_witness :
  exists response h',
    executeRequest oneRound request [] = (Ok response, h') /\
    res_content response = "done" /\
    res_content response = lastText (completions h').
Proof.
  eexists _, _. split; [vm_compute; reflexivity|].
  split; [vm_compute; reflexivity|].
  apply (content_is_last_text oneRound request). vm_compute. reflexivity.
Defined.

Lemma time_accounting_witness :
  exists response h',
    executeRequest oneRound request [] = (Ok response, h') /\
    modelTime (timing response) = 4 /\
    toolsTime (timing response) = 4 /\
    duration (timing response) = 12 /\
    modelTime (timing response) + toolsTime (timing response)
      <= duration (timing response).
Proof.
  edestruct (time_accounting oneRound request) as (_ & _ & T);
    [by apply tickClock_monotone|vm_compute; reflexivity|].
  eexists _, _. split; [vm_compute; reflexivity|].
  do 3 (split; [vm_compute; reflexivity|]). exact T.
Defined.

Lemma segments_account_for_calls_witness :
  exists response h',
    executeRequest oneRound request [] = (Ok response, h') /\
    countType model (timeSegments (timing response)) = 2%nat /\
    countType model (timeSegments (timing response)) = modelCalls h' /\
    countType tool (timeSegments (timing response)) = 1%nat.
Proof.
  edestruct (segments_account_for_calls oneRound request) as (_ & M & _);
    [vm_compute; reflexivity|].
  eexists _, _. split; [vm_compute; reflexivity|].
  split; [vm_compute; reflexivity|]. split; [exact M|vm_compute; reflexivity].
Defined.

Lemma segments_chronological_witness :
  exists response h',
    executeRequest oneRound request [] = (Ok response, h') /\
    length (timeSegments (timing response)) = 3%nat /\
    ordered (fun a b => seg_endTime a <= seg_startTime b)
            (timeSegments (timing response)).
Proof.
  edestruct (segments_chronological oneRound request) as (_ & O);
    [by apply tickClock_monotone|vm_compute; reflexivity|].
  eexists _, _. split; [vm_compute; reflexivity|].
  split; [vm_compute; reflexivity|exact O].
Defined.

End OpenAIFacts.

(** * Properties of the run batcher *)

Module ControlBarFacts.
Import ControlBar.

Section Facts.

Variable E : Env.

Lemma runEvents_S i k :
  runEvents E i (S k) =
  EvCheckCancel i false :: EvRun i (handleRunWorkflow E i) :: runEvents E (S i) k.
Proof. reflexivity. Qed.

Lemma runsExecuted_runEvents i k :
  omap (fun e => match e with EvRun i _ => Some i | _ => None end)
       (runEvents E i k) = seq i k.
Proof.
  revert i. induction k as [|k IH]; intros i; [done|].
  rewrite runEvents_S. simpl. by rewrite IH.
Qed.

(** The loop when the user clicks cancel during the run of index [i + k],
    every run up to that one resolving. *)
Lemma runLoop_cancelled k :
  forall remaining i st tr,
    (S k < remaining)%nat ->
    cancelFlagRef st = false ->
    (forall j, (i <= j < i + S k)%nat -> run_error (handleRunWorkflow E j) = None) ->
    (forall j, (i <= j < i + k)%nat -> cancelClicked (handleRunWorkflow E j) = false) ->
    cancelClicked (handleRunWorkflow E (i + k)) = true ->
    exists st',
      runLoop E remaining i st tr =
        (Cancelled, st',
         EvCheckCancel (i + S k) true :: reverse (runEvents E i (S k)) ++ tr) /\
      completedRuns st' = (i + S k)%nat /\
      cancelFlagRef st' = true.
Proof.
  induction k as [|k IH]; intros remaining i st tr Hk Hflag Herr Hno Hc.
  - destruct remaining as [|[|remaining]]; [lia|lia|].
    simpl. rewrite Hflag.
    rewrite Herr by lia.
    replace (i + 0)%nat with i in Hc by lia. rewrite Hc. simpl.
    eexists. split.
    { replace (i + 1)%nat with (S i) by lia. reflexivity. }
    simpl. split; [lia|reflexivity].
  - destruct remaining as [|remaining]; [lia|].
    cbn [runLoop]. rewrite Hflag.
    rewrite Herr by lia. rewrite Hno by lia.
    destruct (IH remaining (S i) (setCompletedRuns (i + 1) st)
                (EvRun i (handleRunWorkflow E i) :: EvCheckCancel i false :: tr))
      as (st' & E' & C' & F'); try done; try lia.
    + intros j Hj. apply Herr. lia.
    + intros j Hj. apply Hno. lia.
    + by replace (S i + k)%nat with (i + S k)%nat by lia.
    + exists st'. rewrite E'. split; [|split; [lia|done]].
      rewrite (runEvents_S i (S k)).
      replace (S i + S k)%nat with (i + S (S k))%nat by lia.
      rewrite !reverse_cons, <- !app_assoc. reflexivity.
Qed.

(** The loop issues no statistics call. *)
Lemma runLoop_no_fetch remaining :
  forall i st tr st' tr' exit,
    runLoop E remaining i st tr = (exit, st', tr') ->
    statsCalls tr' = statsCalls tr.
Proof.
  induction remaining as [|remaining IH]; intros i st tr st' tr' exit; simpl.
  - by intros [= _ _ <-].
  - destruct (cancelFlagRef st).
    + intros [= _ _ <-]. unfold statsCalls. rewrite reverse_cons, omap_app. simpl.
      by rewrite app_nil_r.
    + destruct (run_error (handleRunWorkflow E i)).
      * intros [= _ _ <-]. unfold statsCalls.
        rewrite !reverse_cons, !omap_app. simpl. by rewrite !app_nil_r.
      * intros H. apply IH in H. rewrite H. unfold statsCalls.
        rewrite !reverse_cons, !omap_app. simpl. by rewrite !app_nil_r.
Qed.

Lemma rejection_check i flag tr :
  rejection (EvCheckCancel i flag :: tr) = rejection tr.
Proof. reflexivity. Qed.

Lemma rejection_fetch url r tr :
  rejection (EvFetch url r :: tr) = rejection tr.
Proof. reflexivity. Qed.

Lemma rejection_run i r tr :
  rejection (EvRun i r :: tr) =
  match run_error r with Some v => Some v | None => rejection tr end.
Proof. unfold rejection. simpl. by destruct (run_error r). Qed.

(** How the loop was left can be read off the trace. *)
Lemma runLoop_trace remaining :
  forall i st tr exit st' tr',
    runLoop E remaining i st tr = (exit, st', tr') ->
    rejection tr = None ->
    cancelObserved tr = false ->
    match exit with
    | Finished => rejection tr' = None /\ cancelObserved tr' = false
    | Cancelled => rejection tr' = None /\ cancelObserved tr' = true
    | Threw err => rejection tr' = Some err /\ cancelObserved tr' = false
    end.
Proof.
  induction remaining as [|remaining IH]; intros i st tr exit st' tr'; simpl.
  - by intros [= <- _ <-].
  - destruct (cancelFlagRef st) eqn:Hflag.
    + intros [= <- _ <-] Hr Hc. by rewrite rejection_check.
    + destruct (run_error (handleRunWorkflow E i)) as [err|] eqn:He.
      * intros [= <- _ <-] Hr Hc.
        rewrite rejection_run, He. simpl. by rewrite Hc.
      * intros H Hr Hc. apply IH in H; [done| |].
        -- by rewrite rejection_run, He, rejection_check.
        -- simpl. by rewrite Hc.
Qed.

(** * The claims *)

(** C4 (as amended).  The statistics call is issued exactly once (when a
    workflow is active) after a batch that ends with outcome [completed],
    every run having resolved; it is not issued after a batch that ends
    with outcome [cancelled] or [failed]; whatever [fetch] does, the outcome
    and the final state of the batch are the same.  Moreover no call is
    issued in a batch in which a run rejected. *)
Theorem stats_call_only_after_completed st0 r :
  handleMultipleRuns E st0 = Some r ->
  (outcome r = completed -> rejection (trace r) = None ->
   truthy_str (activeWorkflowId st0) = true ->
   statsCalls (trace r) =
     [statsUrl (default "" (activeWorkflowId st0)) (runCount st0)]) /\
  (outcome r = cancelled -> statsCalls (trace r) = []) /\
  (outcome r = failed -> statsCalls (trace r) = []) /\
  (rejection (trace r) <> None -> statsCalls (trace r) = []) /\
  (forall f, exists r',
      handleMultipleRuns (withFetch f E) st0 = Some r' /\
      outcome r' = outcome r /\ finalState r' = finalState r).
Proof.
  unfold handleMultipleRuns.
  destruct (isExecuting st0 || isMultiRunning st0 || _); [done|].
  destruct (runLoop E (runCount st0) 0 (startBatch st0) []) as [[exit st] tr] eqn:EL.
  pose proof (runLoop_no_fetch _ _ _ _ _ _ _ EL) as X.
  change (statsCalls []) with (@nil string) in X.
  pose proof (runLoop_trace _ _ _ _ _ _ _ EL eq_refl eq_refl) as T.
  destruct exit as [| |err]; cbn [negb andb truthy_opt].
  - intros [= <-]. cbn [outcome trace finalState].
    split; [|split; [done|split; [done|split]]].
    + intros _ _ ->. unfold statsCalls in *. by rewrite reverse_cons, omap_app, X.
    + intros Hr. destruct T as [T _].
      destruct (truthy_str (activeWorkflowId st0));
        rewrite ?rejection_fetch, T in Hr; done.
    + intros f. change (runLoop (withFetch f E)) with (runLoop E). rewrite EL.
      eexists. split; [reflexivity|done].
  - intros [= <-]. cbn [outcome trace finalState].
    split; [done|]. split; [done|]. split; [done|]. split; [done|].
    intros f. change (runLoop (withFetch f E)) with (runLoop E). rewrite EL.
    eexists. split; [reflexivity|done].
  - destruct T as [T _].
    destruct (truthy err) eqn:Hv; intros [= <-]; cbn [outcome trace finalState];
      (split; [intros _ Hr; congruence|]); (split; [done|]);
      (split; [done|]); (split; [done|]);
      intros f; change (runLoop (withFetch f E)) with (runLoop E); rewrite EL;
      cbn [truthy_opt]; rewrite Hv; (eexists; split; [reflexivity|done]).
Qed.

(** C5.  In a batch of [runCount] runs in which the first [k] runs resolve
    and the user clicks cancel during run [k] (with [1 <= k < runCount]), the
    flag is read before every run, runs [1] to [k] execute and no other, the
    next read of the flag finds it set, [completedRuns] is [k], and the
    outcome is [cancelled], reported by the info notification and not as a
    failure. *)
Theorem cancel_after_run_k st0 k :
  isExecuting st0 = false ->
  isMultiRunning st0 = false ->
  (1 <= k < runCount st0)%nat ->
  (forall j, (j < k)%nat -> run_error (handleRunWorkflow E j) = None) ->
  (forall j, (j + 1 < k)%nat -> cancelClicked (handleRunWorkflow E j) = false) ->
  cancelClicked (handleRunWorkflow E (k - 1)) = true ->
  exists r,
    handleMultipleRuns E st0 = Some r /\
    outcome r = cancelled /\ outcome r <> failed /\
    completedRuns (finalState r) = k /\
    reverse (trace r) = runEvents E 0 k ++ [EvCheckCancel k true] /\
    runsExecuted (trace r) = seq 0 k /\
    last (notifications (finalState r)) =
      Some {| n_type := info; n_message := "Workflow run cancelled";
              n_workflowId := activeWorkflowId st0 |}.
Proof.
  intros Hx Hm Hk Herr Hno Hc.
  destruct k as [|k]; [lia|].
  destruct (runLoop_cancelled k (runCount st0) 0 (startBatch st0) [])
    as (st' & EL & C & F); try done; try lia.
  - intros j Hj. apply Herr. lia.
  - intros j Hj. apply Hno. lia.
  - by replace (S k - 1)%nat with k in Hc by lia.
  - unfold handleMultipleRuns. rewrite Hx, Hm.
    rewrite bool_decide_false by lia. cbn [orb].
    rewrite EL. cbn [negb andb].
    eexists. split; [reflexivity|]. cbn [outcome finalState trace].
    rewrite app_nil_r in *.
    repeat split; try done.
    + rewrite reverse_cons, reverse_involutive. done.
    + unfold runsExecuted. rewrite reverse_cons, reverse_involutive, omap_app.
      rewrite runsExecuted_runEvents. simpl. by rewrite app_nil_r.
    + simpl. by rewrite last_snoc.
Qed.

End Facts.

(** ** Concrete batches *)

Import BatchExamples.

(** C4, counterexample: a batch of five runs cancelled during its second run
    ends with outcome [cancelled] and issues no statistics call. *)
Lemma cancelled_batch_no_stats :
  exists r,
    handleMultipleRuns cancelDuringSecond (idle 5) = Some r /\
    outcome r = cancelled /\
    completedRuns (finalState r) = 2%nat /\
    statsCalls (trace r) = [].
Proof.
  eexists. split; [vm_compute; reflexivity|].
  repeat split; vm_compute; reflexivity.
Qed.

Lemma stats_call_only_after_completed_witness :
  exists r,
    handleMultipleRuns allSucceed (idle 3) = Some r /\
    outcome r = completed /\
    statsCalls (trace r) = ["/api/workflows/wf-1/stats?runs=3"] /\
    exists r',
      handleMultipleRuns (withFetch (fun _ => FetchResolves) allSucceed) (idle 3)
        = Some r' /\
      outcome r' = outcome r /\ finalState r' = finalState r.
Proof.
  edestruct (stats_call_only_after_completed allSucceed (idle 3))
    as (_ & _ & _ & _ & C);
    [vm_compute; reflexivity|].
  eexists. split; [vm_compute; reflexivity|].
  split; [vm_compute; reflexivity|].
  split; [vm_compute; reflexivity|].
  apply C.
Defined.

Lemma cancel_after_run_k_witness :
  exists r,
    handleMultipleRuns cancelDuringSecond (idle 5) = Some r /\
    outcome r = cancelled /\
    completedRuns (finalState r) = 2%nat /\
    runsExecuted (trace r) = [0; 1]%nat.
Proof.
  destruct (cancel_after_run_k cancelDuringSecond (idle 5) 2)
    as (r & Hr & O & _ & C & _ & R & _).
  - reflexivity.
  - reflexivity.
  - simpl. lia.
  - intros j _. reflexivity.
  - intros j Hj. simpl. apply bool_decide_false. lia.
  - reflexivity.
  - by exists r.
Defined.

(** * Further properties of the control bar *)

Section MoreFacts.

Variable E : Env.

Lemma setCompletedRuns_id st : setCompletedRuns (completedRuns st) st = st.
Proof. by destruct st. Qed.

Lemma runsExecuted_snoc_run tr i r :
  runsExecuted (EvRun i r :: tr) = runsExecuted tr ++ [i].
Proof. unfold runsExecuted. by rewrite reverse_cons, omap_app. Qed.

Lemma runsExecuted_snoc_check tr i b :
  runsExecuted (EvCheckCancel i b :: tr) = runsExecuted tr.
Proof. unfold runsExecuted. rewrite reverse_cons, omap_app. simpl. by rewrite app_nil_r. Qed.

Lemma runsExecuted_snoc_fetch tr u r :
  runsExecuted (EvFetch u r :: tr) = runsExecuted tr.
Proof. unfold runsExecuted. rewrite reverse_cons, omap_app. simpl. by rewrite app_nil_r. Qed.

(** [k] runs that resolve with no cancel click are run one after the other. *)
Lemma runLoop_clean k :
  forall remaining i st tr,
    (k <= remaining)%nat ->
    cancelFlagRef st = false ->
    completedRuns st = i ->
    (forall j, (i <= j < i + k)%nat ->
               run_error (handleRunWorkflow E j) = None /\
               cancelClicked (handleRunWorkflow E j) = false) ->
    runLoop E remaining i st tr =
    runLoop E (remaining - k) (i + k) (setCompletedRuns (i + k) st)
            (reverse (runEvents E i k) ++ tr).
Proof.
  induction k as [|k IH]; intros remaining i st tr Hk Hflag Hc Hruns.
  - rewrite Nat.sub_0_r, Nat.add_0_r. subst i. by rewrite setCompletedRuns_id.
  - destruct remaining as [|remaining]; [lia|].
    cbn [runLoop]. rewrite Hflag.
    destruct (Hruns i) as [He Hn]; [lia|]. rewrite He, Hn.
    rewrite (IH remaining (S i)); try done; try lia.
    + replace (S i + k)%nat with (i + S k)%nat by lia.
      rewrite runEvents_S, !reverse_cons, <- !app_assoc. reflexivity.
    + simpl. lia.
    + intros j Hj. apply Hruns. lia.
Qed.

(** What the loop leaves alone. *)
Lemma runLoop_frame remaining :
  forall i st tr exit st' tr',
    runLoop E remaining i st tr = (exit, st', tr') ->
    notifications st' = notifications st /\
    runCount st' = runCount st /\
    hideProgressScheduled st' = hideProgressScheduled st /\
    showRunProgress st' = showRunProgress st /\
    isExecuting st' = isExecuting st /\
    activeWorkflowId st' = activeWorkflowId st.
Proof.
  induction remaining as [|remaining IH]; intros i st tr exit st' tr'; simpl.
  - by intros [= _ <- _].
  - destruct (cancelFlagRef st); [by intros [= _ <- _]|].
    destruct (run_error (handleRunWorkflow E i)).
    + intros [= _ <- _]. by destruct (cancelClicked _).
    + intros H. apply IH in H. by destruct (cancelClicked _).
Qed.

(** The runs started, and the count of completed runs, on every way out. *)
Lemma runLoop_runs remaining :
  forall i st tr exit st' tr',
    completedRuns st = i ->
    runLoop E remaining i st tr = (exit, st', tr') ->
    exists m,
      (m <= remaining)%nat /\
      runsExecuted tr' = runsExecuted tr ++ seq i m /\
      match exit with
      | Finished => m = remaining /\ completedRuns st' = (i + m)%nat
      | Cancelled => (m < remaining)%nat /\ completedRuns st' = (i + m)%nat
      | Threw _ => (1 <= m)%nat /\ (completedRuns st' + 1 = i + m)%nat
      end.
Proof.
  induction remaining as [|remaining IH]; intros i st tr exit st' tr' Hc; simpl.
  - intros [= <- <- <-]. exists 0%nat. simpl. rewrite app_nil_r.
    repeat split; lia.
  - destruct (cancelFlagRef st).
    + intros [= <- <- <-]. exists 0%nat. simpl.
      rewrite runsExecuted_snoc_check, app_nil_r. repeat split; lia.
    + destruct (run_error (handleRunWorkflow E i)) as [err|].
      * intros [= <- <- <-]. exists 1%nat. simpl.
        rewrite runsExecuted_snoc_run, runsExecuted_snoc_check.
        repeat split; try lia. destruct (cancelClicked _); simpl; lia.
      * intros H. apply IH in H as (m & Hm & Hr & Hx); [|simpl; lia].
        exists (S m). split; [lia|]. split.
        { rewrite Hr, runsExecuted_snoc_run, runsExecuted_snoc_check.
          simpl. by rewrite <- app_assoc. }
        destruct exit; lia.
Qed.


(** ** Further properties of [handleMultipleRuns] *)

(** X11.  When the first [k] runs resolve with no cancel click and the
    next run rejects, the loop stops there: that run is the last one
    started, [completedRuns] is [k] and no statistics call is issued.  What
    the batch then reports depends on the rejection reason, which the
    [finally] block tests for truthiness: with a truthy reason the outcome
    is [failed] and the error notification is added; with a falsy one the
    success branch is taken. *)
Theorem run_error_stops_batch st0 k err :
  isExecuting st0 = false ->
  isMultiRunning st0 = false ->
  (k < runCount st0)%nat ->
  (forall j, (j < k)%nat ->
             run_error (handleRunWorkflow E j) = None /\
             cancelClicked (handleRunWorkflow E j) = false) ->
  run_error (handleRunWorkflow E k) = Some err ->
  exists r,
    handleMultipleRuns E st0 = Some r /\
    completedRuns (finalState r) = k /\
    runsExecuted (trace r) = seq 0 (S k) /\
    statsCalls (trace r) = [] /\
    rejection (trace r) = Some err /\
    (truthy err = true ->
       outcome r = failed /\
       notifications (finalState r) =
         notifications st0 ++
         [ {| n_type := error; n_message := "Failed to complete all workflow runs";
              n_workflowId := activeWorkflowId st0 |} ]) /\
    (truthy err = false ->
       outcome r = completed /\
       notifications (finalState r) =
         notifications st0 ++
         (if bool_decide (1 < runCount st0)%nat
          then [ {| n_type := console;
                    n_message := "Completed " +:+ pretty (completedRuns st0)
                                 +:+ " workflow runs";
                    n_workflowId := activeWorkflowId st0 |} ]
          else [])).
Proof.
  intros Hx Hm Hk Hruns Herr.
  assert (exists st',
    runLoop E (runCount st0) 0 (startBatch st0) [] =
      (Threw err, st',
       EvRun k (handleRunWorkflow E k) :: EvCheckCancel k false ::
         reverse (runEvents E 0 k)) /\
    completedRuns st' = k /\ notifications st' = notifications st0)
    as (st' & EL & C & Nt).
  { rewrite (runLoop_clean k); try done; try lia; [|intros j Hj; apply Hruns; lia].
    destruct (runCount st0 - k)%nat as [|rem] eqn:R; [lia|].
    simpl. rewrite Herr. rewrite app_nil_r. eexists. split; [reflexivity|].
    by destruct (cancelClicked _). }
  unfold handleMultipleRuns. rewrite Hx, Hm.
  rewrite bool_decide_false by lia. cbn [orb].
  rewrite EL. cbn [negb andb truthy_opt].
  assert (runsExecuted
            (EvRun k (handleRunWorkflow E k) :: EvCheckCancel k false ::
               reverse (runEvents E 0 k)) = seq 0 (S k)) as RE.
  { rewrite runsExecuted_snoc_run, runsExecuted_snoc_check.
    unfold runsExecuted. rewrite reverse_involutive, runsExecuted_runEvents.
    by rewrite seq_S. }
  pose proof (runLoop_no_fetch E _ _ _ _ _ _ _ EL) as SC.
  pose proof (runLoop_trace E _ _ _ _ _ _ _ EL eq_refl eq_refl) as [RJ _].
  destruct (truthy err) eqn:Hv.
  - eexists. split; [reflexivity|]. cbn [outcome finalState trace].
    split; [exact C|]. split; [exact RE|]. split; [exact SC|].
    split; [exact RJ|]. split; [|done]. intros _. split; [done|].
    simpl. by rewrite Nt.
  - eexists. split; [reflexivity|]. cbn [outcome finalState trace].
    split; [exact C|]. split; [exact RE|]. split; [exact SC|].
    split; [exact RJ|]. split; [done|]. intros _. split; [done|].
    simpl. rewrite Nt. by case_bool_decide.
Qed.

(** X12.  When every run resolves and nobody clicks cancel before the last
    run, the batch completes: all the runs execute, [completedRuns] is
    [runCount], and the statistics call is issued once if a workflow is
    active.  A click on cancel during the last run changes nothing: the flag
    is not read again and is reset when the batch ends. *)
Theorem all_runs_resolve st0 :
  isExecuting st0 = false ->
  isMultiRunning st0 = false ->
  (0 < runCount st0)%nat ->
  (forall j, (j < runCount st0)%nat -> run_error (handleRunWorkflow E j) = None) ->
  (forall j, (j + 1 < runCount st0)%nat ->
             cancelClicked (handleRunWorkflow E j) = false) ->
  exists r,
    handleMultipleRuns E st0 = Some r /\
    outcome r = completed /\
    completedRuns (finalState r) = runCount st0 /\
    runsExecuted (trace r) = seq 0 (runCount st0) /\
    statsCalls (trace r) =
      (if truthy_str (activeWorkflowId st0)
       then [statsUrl (default "" (activeWorkflowId st0)) (runCount st0)]
       else []) /\
    cancelFlagRef (finalState r) = false /\
    isCancelling (finalState r) = false.
Proof.
  intros Hx Hm Hn Herr Hno.
  destruct (runCount st0) as [|k] eqn:N; [lia|].
  assert (exists st',
    runLoop E (S k) 0 (startBatch st0) [] =
      (Finished, st',
       EvRun k (handleRunWorkflow E k) :: EvCheckCancel k false ::
         reverse (runEvents E 0 k)) /\
    completedRuns st' = S k) as (st' & EL & C).
  { rewrite (runLoop_clean k); try done; try lia.
    2:{ intros j Hj. split; [apply Herr|apply Hno]; lia. }
    replace (S k - k)%nat with 1%nat by lia.
    simpl. rewrite Herr by lia. rewrite app_nil_r.
    eexists. split; [reflexivity|].
    destruct (cancelClicked _); simpl; lia. }
  unfold handleMultipleRuns. rewrite Hx, Hm, N.
  rewrite bool_decide_false by lia. cbn [orb].
  rewrite EL. cbn [negb andb truthy_opt].
  pose proof (runLoop_no_fetch E _ _ _ _ _ _ _ EL) as SC.
  eexists. split; [reflexivity|]. cbn [outcome finalState trace].
  split; [done|]. split; [done|]. split; [|split; [|done]].
  - destruct (truthy_str (activeWorkflowId st0));
      rewrite ?runsExecuted_snoc_fetch, runsExecuted_snoc_run, runsExecuted_snoc_check;
      unfold runsExecuted; rewrite reverse_involutive, runsExecuted_runEvents;
      by rewrite seq_S.
  - destruct (truthy_str (activeWorkflowId st0)); [|exact SC].
    unfold statsCalls in *. rewrite reverse_cons, omap_app, SC. done.
Qed.

(** X13.  In every batch the runs started are runs [0 .. m-1] in order,
    with [m <= runCount], and [completedRuns <= runCount]; a cancelled batch
    has completed every run it started and stopped short of [runCount]; a
    failed one has completed all but the last run it started, which
    rejected with a truthy reason; a completed one has run them all, unless
    a run rejected with a falsy reason, in which case it too has completed
    all but the last run it started. *)
Theorem batch_progress st0 r :
  handleMultipleRuns E st0 = Some r ->
  exists m,
    runsExecuted (trace r) = seq 0 m /\
    (m <= runCount st0)%nat /\
    (completedRuns (finalState r) <= runCount st0)%nat /\
    match outcome r with
    | completed =>
        match rejection (trace r) with
        | None => m = runCount st0 /\ completedRuns (finalState r) = runCount st0
        | Some v => truthy v = false /\ m = S (completedRuns (finalState r))
        end
    | cancelled =>
        rejection (trace r) = None /\
        completedRuns (finalState r) = m /\ (m < runCount st0)%nat
    | failed =>
        (exists v, rejection (trace r) = Some v /\ truthy v = true) /\
        m = S (completedRuns (finalState r))
    end.
Proof.
  unfold handleMultipleRuns.
  destruct (isExecuting st0 || isMultiRunning st0 || _); [done|].
  destruct (runLoop E (runCount st0) 0 (startBatch st0) []) as [[exit st] tr] eqn:EL.
  destruct (runLoop_runs (runCount st0) 0%nat (startBatch st0) [] exit st tr eq_refl EL)
    as (m & Hm & Hr & Hx).
  pose proof (runLoop_trace E _ _ _ _ _ _ _ EL eq_refl eq_refl) as T.
  change (runsExecuted []) with (@nil nat) in Hr. simpl in Hr.
  destruct exit as [| |err]; cbn [negb andb truthy_opt].
  - intros [= <-]. cbn [outcome trace finalState]. exists m. simpl.
    destruct T as [T _].
    destruct (truthy_str (activeWorkflowId st0));
      rewrite ?runsExecuted_snoc_fetch, ?rejection_fetch, Hr, T;
      repeat split; lia.
  - intros [= <-]. cbn [outcome trace finalState]. exists m. simpl.
    destruct T as [T _]. rewrite Hr. repeat split; try done; lia.
  - destruct T as [T _].
    destruct (truthy err) eqn:Hv; intros [= <-];
      cbn [outcome trace finalState]; exists m; simpl;
      rewrite Hr, ?T; repeat split; try done; try lia.
    by exists err.
Qed.

(** X14.  However a batch ends, [isMultiRunning], [isCancelling] and the
    cancel flag are reset, the progress display is on exactly when the batch
    had more than one run, and at most one notification is added, which the
    events of the batch determine: the info notification when a read of the
    cancel flag found it set; otherwise the error notification when a run
    rejected with a truthy reason; otherwise a console notification for a
    batch of more than one run, and nothing for a single run. *)
Theorem batch_end_state st0 r :
  handleMultipleRuns E st0 = Some r ->
  isMultiRunning (finalState r) = false /\
  isCancelling (finalState r) = false /\
  cancelFlagRef (finalState r) = false /\
  showRunProgress (finalState r) = bool_decide (1 < runCount st0)%nat /\
  exists note,
    notifications (finalState r) = notifications st0 ++ option_list note /\
    if cancelObserved (trace r) then
      note = Some {| n_type := info; n_message := "Workflow run cancelled";
                     n_workflowId := activeWorkflowId st0 |}
    else if truthy_opt (rejection (trace r)) then
      note = Some {| n_type := error;
                     n_message := "Failed to complete all workflow runs";
                     n_workflowId := activeWorkflowId st0 |}
    else if bool_decide (1 < runCount st0)%nat then
      exists msg, note = Some {| n_type := console; n_message := msg;
                                 n_workflowId := activeWorkflowId st0 |}
    else note = None.
Proof.
  unfold handleMultipleRuns.
  destruct (isExecuting st0 || isMultiRunning st0 || _); [done|].
  destruct (runLoop E (runCount st0) 0 (startBatch st0) []) as [[exit st] tr] eqn:EL.
  destruct (runLoop_frame _ _ _ _ _ _ _ EL) as (Nt & Rc & _ & Sp & _).
  pose proof (runLoop_trace E _ _ _ _ _ _ _ EL eq_refl eq_refl) as T.
  assert (forall note,
    showRunProgress (endBatch note st) = bool_decide (1 < runCount st0)%nat) as SP.
  { intros note. unfold endBatch. cbn [showRunProgress]. rewrite Rc, Sp. simpl.
    by case_bool_decide. }
  destruct exit as [| |err]; cbn [negb andb truthy_opt].
  - intros [= <-]. cbn [outcome trace finalState]. rewrite SP. unfold endBatch.
    cbn [notifications isMultiRunning isCancelling cancelFlagRef]. rewrite Nt.
    (split; [done|]); (split; [done|]); (split; [done|]); (split; [done|]).
    destruct T as [T1 T2].
    eexists. split; [reflexivity|].
    assert (forall u f, cancelObserved (EvFetch u f :: tr) = cancelObserved tr) as CF
      by done.
    destruct (truthy_str (activeWorkflowId st0));
      rewrite ?CF, ?rejection_fetch, T1, T2; cbn [truthy_opt];
      (case_bool_decide; [by eexists|done]).
  - intros [= <-]. cbn [outcome trace finalState]. rewrite SP. unfold endBatch.
    cbn [notifications isMultiRunning isCancelling cancelFlagRef]. rewrite Nt.
    (split; [done|]); (split; [done|]); (split; [done|]); (split; [done|]).
    destruct T as [_ T2]. rewrite T2.
    eexists. split; [reflexivity|]. done.
  - destruct T as [T1 T2].
    destruct (truthy err) eqn:Hv; intros [= <-];
      cbn [outcome trace finalState]; rewrite SP; unfold endBatch;
      cbn [notifications isMultiRunning isCancelling cancelFlagRef]; rewrite Nt;
      (split; [done|]); (split; [done|]); (split; [done|]); (split; [done|]);
      rewrite T1, T2; cbn [truthy_opt]; rewrite Hv;
      (eexists; split; [reflexivity|]); [done|].
    case_bool_decide; [by eexists|done].
Qed.


End MoreFacts.

(** ** The other handlers of the control bar *)

(** X15.  The items of the history dropdown are the entries of the timeline
    (past, present, future) from the newest to the oldest, one item each;
    the item of the present entry is the one marked current and its click
    does nothing; the click on any other item asks to revert to exactly the
    position of its entry in the timeline. *)
Theorem history_items_point_into_timeline history items :
  historyItems history = Some items ->
  length items = length (timeline history) /\
  forall k item,
    items !! k = Some item ->
    exists entry,
      timeline history !! (length (timeline history) - 1 - k)%nat = Some entry /\
      item_action item = action entry /\
      item_timestamp item = timestamp entry /\
      isCurrent item = bool_decide (k = length (future history)) /\
      isFuture item = bool_decide (k < length (future history))%nat /\
      item_revertTo item =
        (if isCurrent item then None
         else Some (Z.of_nat (length (timeline history) - 1 - k))).
Proof.
  unfold historyItems, timeline.
  destruct (_ && _); [done|]. intros [= <-].
  destruct history as [p c f]. simpl.
  set (np := length p). set (nf := length f).
  split.
  { rewrite !length_app, length_imap, length_reverse. simpl.
    rewrite length_imap, length_reverse. lia. }
  intros k item Hk.
  assert (length (p ++ c :: f) = (np + S nf)%nat) as L
    by (rewrite length_app; simpl; lia).
  rewrite L.
  destruct (decide (k < nf)%nat) as [Hlt|Hge].
  - rewrite lookup_app_l in Hk by (rewrite length_imap, length_reverse; lia).
    rewrite list_lookup_imap, reverse_lookup in Hk by lia.
    fold nf in Hk.
    destruct (f !! (nf - S k)%nat) as [entry|] eqn:Hf; [|done].
    simpl in Hk. injection Hk as <-. exists entry. simpl.
    rewrite lookup_app_r by lia. fold np.
    replace (np + S nf - 1 - k - np)%nat with (S (nf - S k)) by lia. simpl.
    rewrite bool_decide_false by lia. rewrite bool_decide_true by lia.
    repeat split; try done. f_equal. lia.
  - rewrite lookup_app_r in Hk by (rewrite length_imap, length_reverse; lia).
    rewrite length_imap, length_reverse in Hk. fold nf in Hk.
    destruct (k - nf)%nat as [|k'] eqn:Hd.
    + simpl in Hk. injection Hk as <-. exists c. simpl.
      assert (k = nf) as -> by lia.
      rewrite lookup_app_r by lia. fold np.
      replace (np + S nf - 1 - nf - np)%nat with 0%nat by lia. simpl.
      rewrite bool_decide_true by done. rewrite bool_decide_false by lia.
      done.
    + simpl in Hk.
      pose proof (lookup_lt_Some _ _ _ Hk) as Lk.
      rewrite length_imap, length_reverse in Lk. fold np in Lk.
      rewrite list_lookup_imap, reverse_lookup in Hk by done.
      fold np in Hk.
      destruct (p !! (np - S k')%nat) as [entry|] eqn:Hp; [|done].
      simpl in Hk. injection Hk as <-. exists entry. simpl.
      rewrite lookup_app_l by lia.
      replace (np + S nf - 1 - k)%nat with (np - S k')%nat by lia.
      rewrite bool_decide_false by lia. rewrite bool_decide_false by lia.
      repeat split; try done. f_equal. lia.
Qed.


(** X16.  A call of [debouncedCheck] leaves exactly one timeout pending, due
    at least [DEBOUNCE_DELAY] after the call and, once a check has been made,
    at least [THROTTLE_INTERVAL] after that check; it is due at most
    [THROTTLE_INTERVAL] after the call when the last check is not in the
    future.  When the timeout fires (not before it is due) and redeployment
    is not yet known to be needed, the status is fetched, the pending count
    is reset, and the check is at least [THROTTLE_INTERVAL] after the
    previous one. *)
Theorem debounce_and_throttle now w :
  exists due,
    debounceTimer (debouncedCheck now w) = Some due /\
    now + DEBOUNCE_DELAY <= due /\
    (0 < lastCheckTime w -> lastCheckTime w + THROTTLE_INTERVAL <= due) /\
    (lastCheckTime w <= now -> due <= now + THROTTLE_INTERVAL) /\
    pendingChanges (debouncedCheck now w) = pendingChanges w + 1 /\
    forall t,
      due <= t -> 0 <= pendingChanges w ->
      exists w',
        timeoutFires t false (debouncedCheck now w) = (w', true) /\
        pendingChanges w' = 0 /\
        lastCheckTime w' = t /\
        (0 < lastCheckTime w -> THROTTLE_INTERVAL <= lastCheckTime w' - lastCheckTime w).
Proof.
  unfold debouncedCheck, timeoutFires, DEBOUNCE_DELAY, THROTTLE_INTERVAL.
  destruct (now - lastCheckTime w <? 3000) eqn:G1;
    destruct (0 <? lastCheckTime w) eqn:G2; simpl;
    rewrite ?Z.ltb_lt, ?Z.ltb_ge in G1, G2;
    (eexists; split; [reflexivity|]);
    (repeat split; try lia);
    intros t Ht Hp;
    (replace (0 <? pendingChanges w + 1) with true by (symmetry; apply Z.ltb_lt; lia));
    (eexists; split; [reflexivity|]); simpl; repeat split; lia.
Qed.


(** X17.  Deleting the active workflow navigates first and removes second,
    removes exactly the active workflow, and never navigates to the page of
    the workflow being deleted: the target is the page of the first other
    workflow, or the root when there is no other. *)
Theorem delete_navigates_elsewhere active workflowIds :
  active <> "" ->
  exists url,
    handleDeleteWorkflow (Some active) workflowIds =
      [RouterPush url; RemoveWorkflow active] /\
    url <> "/w/" +:+ active /\
    ((forall id, id ∈ workflowIds -> id = active) -> url = "/") /\
    (forall other, other ∈ workflowIds -> other <> active ->
       exists id, url = "/w/" +:+ id /\ id ∈ workflowIds /\ id <> active /\
                  head (filter (fun id => id <> active) workflowIds) = Some id).
Proof.
  intros Hne. unfold handleDeleteWorkflow. simpl.
  rewrite bool_decide_false by done. simpl.
  destruct (filter (fun id => id <> active) workflowIds) as [|id rest] eqn:Hf.
  - eexists. split; [reflexivity|]. split; [done|]. split; [done|].
    intros other Hin Ho.
    assert (other ∈ filter (fun id => id <> active) workflowIds) as X
      by (apply list_elem_of_filter; done).
    rewrite Hf in X. by apply elem_of_nil in X.
  - assert (id ∈ filter (fun id => id <> active) workflowIds) as X
      by (rewrite Hf; left).
    apply list_elem_of_filter in X as [Hid Hin].
    eexists. split; [reflexivity|]. split; [|split].
    + intros [= ?]. done.
    + intros Hall. by specialize (Hall id Hin).
    + intros other _ _. by exists id.
Qed.

(** ** Concrete cases for the further properties *)

Lemma run_error_stops_batch_witness :
  exists r,
    handleMultipleRuns failsOnThird (idle 5) = Some r /\
    outcome r = failed /\
    completedRuns (finalState r) = 2%nat /\
    runsExecuted (trace r) = [0; 1; 2]%nat.
Proof.
  destruct (run_error_stops_batch failsOnThird (idle 5) 2
              (JObj {[ "message" := JStr "boom" ]}))
    as (r & Hr & C & R & _ & _ & F & _).
  - reflexivity.
  - reflexivity.
  - simpl. lia.
  - intros j Hj. split; [|reflexivity]. simpl. rewrite bool_decide_false by lia. done.
  - reflexivity.
  - destruct (F eq_refl) as [O _]. by exists r.
Defined.

(** A third run that rejects with the empty string stops the batch after two
    completed runs, with no statistics call; the [finally] block, which tests
    the reason for truthiness, then takes the success branch. *)
Lemma falsy_rejection_takes_success_branch :
  exists r,
    handleMultipleRuns failsQuietlyOnThird (idle 5) = Some r /\
    outcome r = completed /\
    completedRuns (finalState r) = 2%nat /\
    runsExecuted (trace r) = [0; 1; 2]%nat /\
    statsCalls (trace r) = [] /\
    n_type <$> notifications (finalState r) = [console].
Proof.
  eexists. split; [vm_compute; reflexivity|].
  repeat split; vm_compute; reflexivity.
Qed.

Lemma all_runs_resolve_witness :
  exists r,
    handleMultipleRuns cancelDuringLast (idle 3) = Some r /\
    outcome r = completed /\
    completedRuns (finalState r) = 3%nat /\
    statsCalls (trace r) = ["/api/workflows/wf-1/stats?runs=3"].
Proof.
  destruct (all_runs_resolve cancelDuringLast (idle 3))
    as (r & Hr & O & C & _ & S & _).
  - reflexivity.
  - reflexivity.
  - simpl. lia.
  - intros j Hj. reflexivity.
  - intros j Hj. simpl. apply bool_decide_false. simpl in Hj. lia.
  - exists r. split; [exact Hr|]. split; [exact O|]. split; [exact C|].
    rewrite S. vm_compute. reflexivity.
Defined.

Lemma batch_progress_witness :
  exists r m,
    handleMultipleRuns cancelDuringSecond (idle 5) = Some r /\
    runsExecuted (trace r) = seq 0 m /\
    completedRuns (finalState r) = m /\ (m < 5)%nat.
Proof.
  destruct (handleMultipleRuns cancelDuringSecond (idle 5)) as [r|] eqn:Hr;
    [|vm_compute in Hr; discriminate].
  destruct (batch_progress cancelDuringSecond (idle 5) r Hr) as (m & R & _ & _ & X).
  assert (outcome r = cancelled) as O
    by (vm_compute in Hr; injection Hr as <-; reflexivity).
  rewrite O in X. destruct X as (_ & C & L).
  by exists r, m.
Defined.

Lemma batch_end_state_witness :
  exists r,
    handleMultipleRuns failsOnThird (idle 5) = Some r /\
    cancelFlagRef (finalState r) = false /\
    length (notifications (finalState r)) = 1%nat.
Proof.
  eexists. split; [vm_compute; reflexivity|].
  edestruct (batch_end_state failsOnThird (idle 5)) as (_ & _ & F & _);
    [vm_compute; reflexivity|].
  split; [exact F|vm_compute; reflexivity].
Defined.

Lemma history_items_point_into_timeline_witness :
  exists items,
    historyItems sampleHistory = Some items /\
    length items = 4%nat /\
    item_revertTo <$> items = [Some 3; None; Some 1; Some 0].
Proof.
  eexists. split; [vm_compute; reflexivity|].
  edestruct (history_items_point_into_timeline sampleHistory) as (L & _);
    [vm_compute; reflexivity|].
  split; [exact L|vm_compute; reflexivity].
Defined.

Lemma delete_navigates_elsewhere_witness :
  exists url,
    handleDeleteWorkflow (Some "wf-1") ["wf-1"; "wf-2"; "wf-3"] =
      [RouterPush url; RemoveWorkflow "wf-1"] /\
    url <> "/w/wf-1".
Proof.
  destruct (delete_navigates_elsewhere "wf-1" ["wf-1"; "wf-2"; "wf-3"])
    as (url & E & N & _); [done|].
  by exists url.
Defined.

End ControlBarFacts.
